(** * Fragment lifecycle coordination of the BIM viewer (src/main.ts)

    A shallow embedding of the event handlers that [main.ts] installs on
    the camera controls, on the fragments manager and on the timer queue,
    together with the configuration it writes into the streaming loader,
    the highlighter and the visibility culler.

    The objects of the component libraries are modelled by the part of
    their state the program reads or writes: a flag is a [bool], a numeric
    setting an integer or a rational, a JavaScript [Set] a duplicate-free
    list in insertion order, and a method of a library object the program
    calls ([culler.add], [scene.three.add], [camera.fit], [setTimeout],
    [indexer.process], [classifier.byEntity]) the record of that call. *)

From Stdlib Require Import List String ZArith QArith Bool Arith Lia.
From Stdlib Require Import Permutation.
Import ListNotations.
Local Close Scope Q_scope.
Local Open Scope string_scope.
Local Open Scope list_scope.

(** ** Objects *)

(** A [THREE.Mesh].  JavaScript compares objects by reference: [mesh_ref]
    stands for the reference, so two meshes are the same object exactly when
    the records are equal, and two different objects may carry one [uuid]. *)
Record Mesh : Type := mkMesh { mesh_ref : nat; uuid : string }.

(** A fragment of a model; the program only reads [fragment.mesh]. *)
Record Fragment : Type := mkFragment { mesh : Mesh }.

(** The model passed to the [onFragmentsLoaded] listeners. *)
Record FragmentsGroup : Type := mkGroup {
  group_ref : nat;
  hasProperties : bool;
  isStreamed : bool;
  items : list Fragment
}.

Definition Mesh_eq_dec (a b : Mesh) : {a = b} + {a <> b}.
Proof. decide equality; [apply string_dec | apply Nat.eq_dec]. Defined.

Definition Fragment_eq_dec (a b : Fragment) : {a = b} + {a <> b}.
Proof. decide equality; apply Mesh_eq_dec. Defined.

Definition FragmentsGroup_eq_dec (a b : FragmentsGroup) : {a = b} + {a <> b}.
Proof.
  decide equality;
    [apply (list_eq_dec Fragment_eq_dec) | apply bool_dec | apply bool_dec
    | apply Nat.eq_dec].
Defined.

(** ** JavaScript [Set] and [Array.prototype.find] *)

Module JsSet.
Section Ops.
Context {A : Type} (eq_dec : forall a b : A, {a = b} + {a <> b}).

(** [set.add(x)]: a value already in the set keeps its place. *)
Definition add (x : A) (s : list A) : list A :=
  if in_dec eq_dec x s then s else s ++ [x].

(** [set.delete(x)]. *)
Definition delete (x : A) (s : list A) : list A := remove eq_dec x s.
End Ops.
End JsSet.

(** ** Library components, by the state the program touches *)

(** The visibility culler, [components.get(OBC.Cullers).create(world)]. *)
Module Culler.
Record t : Type := mk {
  threshold : Z;
  needsUpdate : bool;
  colorMeshes : list Mesh;     (* the meshes handed to [culler.add] *)
  recomputations : nat         (* how often visibility was recomputed *)
}.

Definition set_threshold (v : Z) (c : t) : t :=
  mk v (needsUpdate c) (colorMeshes c) (recomputations c).
Definition set_needsUpdate (v : bool) (c : t) : t :=
  mk (threshold c) v (colorMeshes c) (recomputations c).
(** [culler.add(mesh)] *)
Definition add (m : Mesh) (c : t) : t :=
  mk (threshold c) (needsUpdate c) (colorMeshes c ++ [m]) (recomputations c).
End Culler.

(** The culler of the streaming loader, [tilesLoader.culler]. *)
Module TileCuller.
Record t : Type := mk {
  threshold : Z;
  maxHiddenTime : Z;
  maxLostTime : Z;
  needsUpdate : bool;
  tracked : list string  (* identifiers registered by the loader itself;
                            [main.ts] has no call that registers any *)
}.

Definition set_threshold (v : Z) (c : t) : t :=
  mk v (maxHiddenTime c) (maxLostTime c) (needsUpdate c) (tracked c).
Definition set_maxHiddenTime (v : Z) (c : t) : t :=
  mk (threshold c) v (maxLostTime c) (needsUpdate c) (tracked c).
Definition set_maxLostTime (v : Z) (c : t) : t :=
  mk (threshold c) (maxHiddenTime c) v (needsUpdate c) (tracked c).
Definition set_needsUpdate (v : bool) (c : t) : t :=
  mk (threshold c) (maxHiddenTime c) (maxLostTime c) v (tracked c).
End TileCuller.

(** The streaming loader, [components.get(OBF.IfcStreamer)]. *)
Module Streamer.
Record t : Type := mk {
  cancel : bool;
  culler : TileCuller.t
}.

Definition set_cancel (v : bool) (l : t) : t := mk v (culler l).
Definition map_culler (f : TileCuller.t -> TileCuller.t) (l : t) : t :=
  mk (cancel l) (f (culler l)).
End Streamer.

(** The highlighter, [components.get(OBF.Highlighter)]. *)
Module Highlighter.
Record t : Type := mk {
  zoomToSelection : bool;
  selection : list string;        (* the SelectionSet *)
  highlighted : list string;      (* identifiers drawn highlighted *)
  zoomRequests : list (list string);  (* camera-fits it asked for *)
  notifications : nat             (* highlight-changed notifications *)
}.

Definition set_zoomToSelection (v : bool) (h : t) : t :=
  mk v (selection h) (highlighted h) (zoomRequests h) (notifications h).
End Highlighter.

(** What a pending [setTimeout] will run.  The program has one callback,
    [async () => { world.camera.fit(world.meshes, 0.8) }]. *)
Inductive Callback : Type := FitWorldMeshes.

Record Timer : Type := mkTimer { callback : Callback; delay : Z }.

(** A call [world.camera.fit(target, margin)]. *)
Record Fit : Type := mkFit { target : list Mesh; margin : Q }.

(** The whole program state. *)
Record App : Type := mkApp {
  meshes : list Mesh;                 (* world.meshes, a Set *)
  sceneChildren : list FragmentsGroup;  (* world.scene.three.children *)
  restThreshold : Q;                  (* world.camera.controls.restThreshold *)
  fits : list Fit;                    (* calls of world.camera.fit so far *)
  culler : Culler.t;
  tilesLoader : Streamer.t;
  highlighter : Highlighter.t;
  indexed : list FragmentsGroup;      (* models indexer.process completed *)
  classified : list FragmentsGroup;   (* models classifier.byEntity took *)
  timers : list Timer                 (* pending timeouts, oldest first *)
}.

Section Setters.
Variable s : App.

Definition set_meshes (v : list Mesh) : App :=
  mkApp v (sceneChildren s) (restThreshold s) (fits s) (culler s)
        (tilesLoader s) (highlighter s) (indexed s) (classified s) (timers s).
Definition set_sceneChildren (v : list FragmentsGroup) : App :=
  mkApp (meshes s) v (restThreshold s) (fits s) (culler s)
        (tilesLoader s) (highlighter s) (indexed s) (classified s) (timers s).
Definition set_restThreshold (v : Q) : App :=
  mkApp (meshes s) (sceneChildren s) v (fits s) (culler s)
        (tilesLoader s) (highlighter s) (indexed s) (classified s) (timers s).
Definition set_fits (v : list Fit) : App :=
  mkApp (meshes s) (sceneChildren s) (restThreshold s) v (culler s)
        (tilesLoader s) (highlighter s) (indexed s) (classified s) (timers s).
Definition set_culler (v : Culler.t) : App :=
  mkApp (meshes s) (sceneChildren s) (restThreshold s) (fits s) v
        (tilesLoader s) (highlighter s) (indexed s) (classified s) (timers s).
Definition set_tilesLoader (v : Streamer.t) : App :=
  mkApp (meshes s) (sceneChildren s) (restThreshold s) (fits s) (culler s)
        v (highlighter s) (indexed s) (classified s) (timers s).
Definition set_highlighter (v : Highlighter.t) : App :=
  mkApp (meshes s) (sceneChildren s) (restThreshold s) (fits s) (culler s)
        (tilesLoader s) v (indexed s) (classified s) (timers s).
Definition set_indexed (v : list FragmentsGroup) : App :=
  mkApp (meshes s) (sceneChildren s) (restThreshold s) (fits s) (culler s)
        (tilesLoader s) (highlighter s) v (classified s) (timers s).
Definition set_classified (v : list FragmentsGroup) : App :=
  mkApp (meshes s) (sceneChildren s) (restThreshold s) (fits s) (culler s)
        (tilesLoader s) (highlighter s) (indexed s) v (timers s).
Definition set_timers (v : list Timer) : App :=
  mkApp (meshes s) (sceneChildren s) (restThreshold s) (fits s) (culler s)
        (tilesLoader s) (highlighter s) (indexed s) (classified s) v.
End Setters.

(** ** Configuration (main.ts lines 94-110)

    The assignments the script makes once the components exist; [base] is
    the state in which the libraries construct them. *)
Definition configure (base : App) : App :=
  let s := set_tilesLoader base
             (Streamer.map_culler (TileCuller.set_threshold 10)
                (tilesLoader base)) in
  let s := set_tilesLoader s
             (Streamer.map_culler (TileCuller.set_maxHiddenTime 1000)
                (tilesLoader s)) in
  let s := set_tilesLoader s
             (Streamer.map_culler (TileCuller.set_maxLostTime 40000)
                (tilesLoader s)) in
  let s := set_highlighter s
             (Highlighter.set_zoomToSelection true (highlighter s)) in
  let s := set_culler s (Culler.set_threshold 5 (culler s)) in
  set_restThreshold s (1 # 4)%Q.

(** ** Asynchronous handlers: state passing with rejection

    An [async] handler either runs to its end or stops at the first
    rejected [await] or thrown exception, keeping the effects it had up to
    there. *)

Inductive Settled (A : Type) : Type :=
| Fulfilled (a : A)
| Rejected (reason : string).
Arguments Fulfilled {A} a.
Arguments Rejected {A} reason.

Definition Task (A : Type) : Type := App -> Settled A * App.

Definition ret {A : Type} (a : A) : Task A := fun s => (Fulfilled a, s).

Definition bind {A B : Type} (m : Task A) (k : A -> Task B) : Task B :=
  fun s =>
    match m s with
    | (Fulfilled a, s') => k a s'
    | (Rejected e, s') => (Rejected e, s')
    end.

Declare Scope task_scope.
Delimit Scope task_scope with task.
Notation "m ;; k" := (bind m (fun _ => k))
  (at level 61, right associativity) : task_scope.
Local Open Scope task_scope.

(** A statement that cannot fail. *)
Definition act (f : App -> App) : Task unit := fun s => (Fulfilled tt, f s).

(** [if (c) { body }] *)
Definition when (c : bool) (body : Task unit) : Task unit :=
  if c then body else ret tt.

(** [for (const x of l) { body }] *)
Fixpoint forEach {A : Type} (l : list A) (body : A -> Task unit) : Task unit :=
  match l with
  | [] => ret tt
  | x :: rest => body x ;; forEach rest body
  end.

(** How the two semantic services answer for a model: [None] when the call
    succeeds, [Some e] when [indexer.process] rejects, respectively when
    [classifier.byEntity] throws, with [e]. *)
Record Services : Type := mkServices {
  indexer_process : FragmentsGroup -> option string;
  classifier_byEntity : FragmentsGroup -> option string
}.

Section Handlers.
Variable ext : Services.

(** [await indexer.process(model)] *)
Definition indexerProcess (model : FragmentsGroup) : Task unit :=
  fun s =>
    match indexer_process ext model with
    | None => (Fulfilled tt, set_indexed s (indexed s ++ [model]))
    | Some e => (Rejected e, s)
    end.

(** [classifier.byEntity(model)] *)
Definition classifierByEntity (model : FragmentsGroup) : Task unit :=
  fun s =>
    match classifier_byEntity ext model with
    | None => (Fulfilled tt, set_classified s (classified s ++ [model]))
    | Some e => (Rejected e, s)
    end.

(** [world.meshes.add(mesh)] *)
Definition worldMeshesAdd (m : Mesh) : Task unit :=
  act (fun s => set_meshes s (JsSet.add Mesh_eq_dec m (meshes s))).

(** [culler.add(mesh)] *)
Definition cullerAdd (m : Mesh) : Task unit :=
  act (fun s => set_culler s (Culler.add m (culler s))).

(** [world.scene.three.add(model)]: three.js detaches an object from its
    parent before appending it to the children. *)
Definition sceneAdd (model : FragmentsGroup) : Task unit :=
  act (fun s =>
         set_sceneChildren s
           (remove FragmentsGroup_eq_dec model (sceneChildren s) ++ [model])).

(** [setTimeout(cb, ms)] *)
Definition setTimeout (cb : Callback) (ms : Z) : Task unit :=
  act (fun s => set_timers s (timers s ++ [mkTimer cb ms])).

(** main.ts lines 118-138 *)
Definition onFragmentsLoaded (model : FragmentsGroup) : Task unit :=
  when (hasProperties model)
    (indexerProcess model ;;
     classifierByEntity model) ;;
  when (negb (isStreamed model))
    (forEach (items model) (fun fragment =>
       worldMeshesAdd (mesh fragment) ;;
       cullerAdd (mesh fragment))) ;;
  sceneAdd model ;;
  when (negb (isStreamed model))
    (setTimeout FitWorldMeshes 50).
End Handlers.

(** [world.camera.fit(world.meshes, 0.8)], the body of the timer callback
    (main.ts line 135): the collection is read when the callback runs. *)
Definition runCallback (cb : Callback) (s : App) : App :=
  match cb with
  | FitWorldMeshes => set_fits s (fits s ++ [mkFit (meshes s) (8 # 10)%Q])
  end.

(** The oldest pending timeout fires. *)
Definition fireTimer (s : App) : App :=
  match timers s with
  | [] => s
  | t :: rest => runCallback (callback t) (set_timers s rest)
  end.

(** main.ts lines 111-115, the ["rest"] listener of the camera controls. *)
Definition onRest (s : App) : App :=
  let s := set_culler s (Culler.set_needsUpdate true (culler s)) in
  let s := set_tilesLoader s (Streamer.set_cancel true (tilesLoader s)) in
  set_tilesLoader s
    (Streamer.map_culler (TileCuller.set_needsUpdate true) (tilesLoader s)).

(** main.ts lines 143-146, one turn of the loop over [fragmentIDs]:
    [[...world.meshes].find((mesh) => mesh.uuid === fragmentID)] and the
    guarded [world.meshes.delete(mesh)]. *)
Definition disposeFragment (s : App) (fragmentID : string) : App :=
  match find (fun m => String.eqb (uuid m) fragmentID) (meshes s) with
  | Some m => set_meshes s (JsSet.delete Mesh_eq_dec m (meshes s))
  | None => s
  end.

(** main.ts lines 141-148 *)
Definition onFragmentsDisposed (fragmentIDs : list string) (s : App) : App :=
  fold_left disposeFragment fragmentIDs s.


(** ** The event loop

    Handlers run one at a time, and the [await] of line 120 is taken to
    settle before the next event is dispatched.  The promise an [async]
    listener returns is dropped by the emitter, so a rejection only ends
    that handler. *)
Inductive Event : Type :=
| CameraRest
| FragmentsLoaded (model : FragmentsGroup)
| FragmentsDisposed (fragmentIDs : list string)
| TimerFired.

Definition dispatch (ext : Services) (e : Event) (s : App) : App :=
  match e with
  | CameraRest => onRest s
  | FragmentsLoaded model => snd (onFragmentsLoaded ext model s)
  | FragmentsDisposed fragmentIDs => onFragmentsDisposed fragmentIDs s
  | TimerFired => fireTimer s
  end.

(** ** Parts of the component libraries the source only configures *)

(** Modelled from the spec: the residency state of a fragment (spec
    section 3).  It is kept inside [OBF.IfcStreamer], which [main.ts]
    configures and whose code is not in the repository. *)
Inductive Residency : Type := Unloaded | Loading | Resident | Evicting.

(** Modelled from the spec: what the Streaming Culler and its loader do to
    one fragment (spec sections 4.2, 5 and 7); the steps are taken inside
    [OBF.IfcStreamer]. *)
Inductive StreamStep : Type :=
| RequestLoad                    (* 4.2 step 2: a load is requested *)
| LoadCompleted (wanted : bool)  (* 4.2, 5: the loader callback runs *)
| LoadFailed                     (* 7 (a): the load fails *)
| StartEviction                  (* 4.2 steps 3, 4: hidden or lost too long *)
| ReleaseGeometry.               (* 4.2 step 3: geometry released *)

(** Modelled from the spec: one step of the residency state machine of
    [OBF.IfcStreamer].  A requested load takes Unloaded to Loading; a
    completion is applied only if the fragment is still Loading, still
    wanted and the cancel flag is not raised, otherwise the result is
    discarded and the fragment is left Unloaded; a failed load reverts to
    Unloaded; eviction goes through Evicting to Unloaded. *)
Definition streamStep (cancel : bool) (r : Residency) (e : StreamStep)
  : Residency :=
  match r, e with
  | Unloaded, RequestLoad => Loading
  | Loading, LoadCompleted wanted =>
      if cancel || negb wanted then Unloaded else Resident
  | Loading, LoadFailed => Unloaded
  | Resident, StartEviction => Evicting
  | Evicting, ReleaseGeometry => Unloaded
  | _, _ => r
  end.

(** The edges of the cycle Unloaded, Loading, Resident, Evicting, Unloaded. *)
Definition onCycle (a b : Residency) : bool :=
  match a, b with
  | Unloaded, Loading | Loading, Resident
  | Resident, Evicting | Evicting, Unloaded => true
  | _, _ => false
  end.

(** The changes of residency seen along a run; each step reads the cancel
    flag as it stands then. *)
Fixpoint observedEdges (r : Residency) (run : list (bool * StreamStep))
  : list (Residency * Residency) :=
  match run with
  | [] => []
  | (cancel, e) :: rest =>
      let r' := streamStep cancel r e in
      match r, r' with
      | Unloaded, Unloaded | Loading, Loading
      | Resident, Resident | Evicting, Evicting => observedEdges r' rest
      | _, _ => (r, r') :: observedEdges r' rest
      end
  end.

(** Modelled from the spec: the Visibility Culler when a frame elapses
    (spec section 4.3): visibility is recomputed only when the culler was
    signalled dirty, and recomputing clears the signal.  The step is taken
    inside [OBC.Cullers]. *)
Definition frameElapsed (c : Culler.t) : Culler.t :=
  if Culler.needsUpdate c
  then Culler.mk (Culler.threshold c) false (Culler.colorMeshes c)
                 (S (Culler.recomputations c))
  else c.

(** Modelled from the spec: [select(fragmentIds, options)] of the Selection
    and Highlight Tracker (spec sections 4.4 and 8), implemented by
    [OBF.Highlighter].  An empty set clears all highlight state and asks
    for no camera-fit; otherwise the identifiers present in the store
    replace or augment the selection, and [zoomToSelection] asks for a
    camera-fit bounding the selection.  Every call notifies. *)
Definition select (fragmentIds : list string) (augment : bool) (s : App)
  : App :=
  let h := highlighter s in
  match fragmentIds with
  | [] =>
      set_highlighter s
        (Highlighter.mk (Highlighter.zoomToSelection h) [] []
           (Highlighter.zoomRequests h) (S (Highlighter.notifications h)))
  | _ :: _ =>
      let known :=
        filter (fun i => existsb (fun m => String.eqb (uuid m) i) (meshes s))
               fragmentIds in
      let sel := if augment then Highlighter.selection h ++ known else known in
      set_highlighter s
        (Highlighter.mk (Highlighter.zoomToSelection h) sel sel
           (if Highlighter.zoomToSelection h
            then Highlighter.zoomRequests h ++ [sel]
            else Highlighter.zoomRequests h)
           (S (Highlighter.notifications h)))
  end.

(** ** Where a fragment is registered *)

Definition inStore (m : Mesh) (s : App) : Prop := In m (meshes s).

Definition inVisibilityCuller (m : Mesh) (s : App) : Prop :=
  In m (Culler.colorMeshes (culler s)).

Definition inStreamingCuller (m : Mesh) (s : App) : Prop :=
  In (uuid m) (TileCuller.tracked (Streamer.culler (tilesLoader s))).

(** A mesh is in the scene graph through the model that owns it. *)
Definition inSceneGraph (m : Mesh) (s : App) : Prop :=
  exists model, In model (sceneChildren s) /\ In m (map mesh (items model)).

(** The meshes of the event's fragments: those whose uuid is listed. *)
Definition listed (fragmentIDs : list string) (m : Mesh) : bool :=
  existsb (String.eqb (uuid m)) fragmentIDs.

(** The identifiers of the fragments in the store are pairwise distinct. *)
Definition distinctIds (s : App) : Prop := NoDup (map uuid (meshes s)).

(** [s'] differs from [s] in [world.meshes] at most. *)
Definition onlyMeshesChanged (s s' : App) : Prop := s' = set_meshes s (meshes s').


(** ** Closed forms of the load handler *)

(** [world.meshes] after the loop of lines 125-128 over [l]. *)
Definition addAll (l : list Fragment) (set : list Mesh) : list Mesh :=
  fold_left (fun acc fragment => JsSet.add Mesh_eq_dec (mesh fragment) acc) l set.

(** The state after lines 119-122 when both services succeed. *)
Definition indexedState (model : FragmentsGroup) (s : App) : App :=
  if hasProperties model
  then set_classified (set_indexed s (indexed s ++ [model]))
                      (classified s ++ [model])
  else s.

(** The state after lines 124-137. *)
Definition attached (model : FragmentsGroup) (s : App) : App :=
  let children :=
    remove FragmentsGroup_eq_dec model (sceneChildren s) ++ [model] in
  if isStreamed model
  then set_sceneChildren s children
  else
    let c := culler s in
    set_timers
      (set_sceneChildren
         (set_culler
            (set_meshes s (addAll (items model) (meshes s)))
            (Culler.mk (Culler.threshold c) (Culler.needsUpdate c)
               (Culler.colorMeshes c ++ map mesh (items model))
               (Culler.recomputations c)))
         children)
      (timers s ++ [mkTimer FitWorldMeshes 50]).

(** ** The claims as the specification words them *)

(** Disposal removes the listed fragments from the store, both cullers and
    the scene graph, and a second delivery changes nothing. *)
Definition disposalRemovesEverywhere (fragmentIDs : list string) (s : App)
  : Prop :=
  let s' := onFragmentsDisposed fragmentIDs s in
  (forall m, listed fragmentIDs m = true ->
     ~ inStore m s' /\ ~ inVisibilityCuller m s' /\
     ~ inStreamingCuller m s' /\ ~ inSceneGraph m s') /\
  onFragmentsDisposed fragmentIDs s' = s'.

(** Loading a non-streamed model puts every fragment in the scene graph and
    in both cullers and schedules one camera-fit. *)
Definition loadRegistersEverywhere (ext : Services) (model : FragmentsGroup)
  (s : App) : Prop :=
  isStreamed model = false ->
  let s' := snd (onFragmentsLoaded ext model s) in
  (forall fragment, In fragment (items model) ->
     inSceneGraph (mesh fragment) s' /\
     inVisibilityCuller (mesh fragment) s' /\
     inStreamingCuller (mesh fragment) s') /\
  timers s' = timers s ++ [mkTimer FitWorldMeshes 50].

(** A failing semantic step leaves the handler fulfilled and the model in
    the scene. *)
Definition indexingFailureHarmless (ext : Services) (model : FragmentsGroup)
  (s : App) : Prop :=
  hasProperties model = true ->
  (indexer_process ext model <> None \/ classifier_byEntity ext model <> None) ->
  fst (onFragmentsLoaded ext model s) = Fulfilled tt /\
  In model (sceneChildren (snd (onFragmentsLoaded ext model s))).

(** Residency only moves along the cycle. *)
Definition cycleOnly (cancel : bool) (r : Residency) (e : StreamStep) : Prop :=
  streamStep cancel r e = r \/ onCycle r (streamStep cancel r e) = true.

(** Camera rest, model loaded and model disposed each signal the
    visibility culler. *)
Definition signalsVisibilityCuller (ext : Services) (e : Event) (s : App)
  : Prop :=
  match e with
  | TimerFired => True
  | _ => Culler.needsUpdate (culler (dispatch ext e s)) = true
  end.

(** Re-delivering a disposed event leaves the state unchanged. *)
Definition redeliveryUnchanged (fragmentIDs : list string) (s : App) : Prop :=
  onFragmentsDisposed fragmentIDs (onFragmentsDisposed fragmentIDs s)
  = onFragmentsDisposed fragmentIDs s.


(** ** Sample states and events *)

(** A viewer in which nothing was loaded yet, configured by the script. *)
Definition blank : App :=
  configure
    (mkApp [] [] 0%Q []
       (Culler.mk 0 false [] 0)
       (Streamer.mk false (TileCuller.mk 0 0 0 false []))
       (Highlighter.mk false [] [] [] 0)
       [] [] []).

Definition wallMesh : Mesh := mkMesh 1 "wall".
Definition slabMesh : Mesh := mkMesh 2 "slab".
Definition roofMesh : Mesh := mkMesh 3 "roof".
(** Another mesh object carrying the uuid of [wallMesh]. *)
Definition wallTwin : Mesh := mkMesh 4 "wall".

(** A non-streamed model without properties, three fragments. *)
Definition house : FragmentsGroup :=
  mkGroup 1 false false
    [mkFragment wallMesh; mkFragment slabMesh; mkFragment roofMesh].

(** A non-streamed model with properties. *)
Definition annex : FragmentsGroup :=
  mkGroup 2 true false [mkFragment wallTwin].

(** Both services succeed. *)
Definition servicesOk : Services :=
  mkServices (fun _ => None) (fun _ => None).

(** [indexer.process] rejects. *)
Definition indexerDown : Services :=
  mkServices (fun _ => Some "indexing failed") (fun _ => None).

(** Closes a goal [NoDup l] for a list of distinct constants. *)
Ltac distinct_constants :=
  vm_compute;
  repeat (constructor; [simpl; intuition discriminate|]);
  constructor.

(** ** Runs of the event loop *)

(** The events of a queue handled one after the other. *)
Definition run (ext : Services) (events : list Event) (s : App) : App :=
  fold_left (fun st e => dispatch ext e st) events s.

(** Lines 119-122 go through for [model]: it has no properties, or both
    services succeed. *)
Definition semanticsSucceed (ext : Services) (model : FragmentsGroup) : bool :=
  negb (hasProperties model) ||
  match indexer_process ext model, classifier_byEntity ext model with
  | None, None => true
  | _, _ => false
  end.

(** The event reaches the [setTimeout] of line 134. *)
Definition schedulesFit (ext : Services) (e : Event) : bool :=
  match e with
  | FragmentsLoaded model => negb (isStreamed model) && semanticsSucceed ext model
  | _ => false
  end.

(** The uuids of the meshes of a model's fragments. *)
Definition meshIds (model : FragmentsGroup) : list string :=
  map (fun fragment => uuid (mesh fragment)) (items model).

(** A streamed model with properties. *)
Definition tower : FragmentsGroup :=
  mkGroup 3 true true [mkFragment (mkMesh 5 "core")].

(** A non-streamed model whose fragment ids are fresh next to [house]. *)
Definition shed : FragmentsGroup :=
  mkGroup 4 false false [mkFragment (mkMesh 6 "door"); mkFragment (mkMesh 7 "sill")].

(** * Properties *)

(** ** Lists standing for sets *)

Section ListFacts.
Context {A : Type}.

Lemma filter_all_true (f : A -> bool) (l : list A) :
  (forall x, In x l -> f x = true) -> filter f l = l.
Proof.
  induction l as [|a l IH]; intros H; simpl; [reflexivity|].
  rewrite (H a (or_introl eq_refl)).
  f_equal. apply IH. intros x Hx. apply H. right. exact Hx.
Qed.

Lemma filter_twice (f g : A -> bool) (l : list A) :
  filter f (filter g l) = filter (fun x => g x && f x) l.
Proof.
  induction l as [|a l IH]; simpl; [reflexivity|].
  destruct (g a); simpl; [destruct (f a)|]; rewrite IH; reflexivity.
Qed.

Lemma NoDup_map_filter {B : Type} (k : A -> B) (f : A -> bool) (l : list A) :
  NoDup (map k l) -> NoDup (map k (filter f l)).
Proof.
  induction l as [|a l IH]; simpl; intros H; [constructor|].
  inversion H as [|? ? Hnin Hnd]; subst.
  destruct (f a); simpl; [constructor|]; auto.
  intros Hin. apply Hnin.
  apply in_map_iff in Hin. destruct Hin as [x [Hx Hxin]].
  apply filter_In in Hxin. rewrite <- Hx. apply in_map. tauto.
Qed.
End ListFacts.

(** ** The disposal loop *)

Lemma set_meshes_same (s : App) : set_meshes s (meshes s) = s.
Proof. destruct s; reflexivity. Qed.

Lemma onlyMeshesChanged_refl (s : App) : onlyMeshesChanged s s.
Proof. unfold onlyMeshesChanged. symmetry. apply set_meshes_same. Qed.

Lemma onlyMeshesChanged_trans (s1 s2 s3 : App) :
  onlyMeshesChanged s1 s2 -> onlyMeshesChanged s2 s3 -> onlyMeshesChanged s1 s3.
Proof.
  unfold onlyMeshesChanged. intros H12 H23.
  rewrite H23. rewrite H12. reflexivity.
Qed.

Lemma disposeFragment_frame (s : App) (id : string) :
  onlyMeshesChanged s (disposeFragment s id).
Proof.
  unfold disposeFragment.
  destruct (find _ (meshes s)); [reflexivity | apply onlyMeshesChanged_refl].
Qed.

Lemma onFragmentsDisposed_frame (ids : list string) (s : App) :
  onlyMeshesChanged s (onFragmentsDisposed ids s).
Proof.
  unfold onFragmentsDisposed. revert s.
  induction ids as [|id ids IH]; intros s; simpl.
  - apply onlyMeshesChanged_refl.
  - eapply onlyMeshesChanged_trans; [apply disposeFragment_frame | apply IH].
Qed.

Lemma find_uuid_none (id : string) (l : list Mesh) :
  (forall m, In m l -> uuid m <> id) ->
  find (fun m => String.eqb (uuid m) id) l = None.
Proof.
  induction l as [|a l IH]; intros H; simpl; [reflexivity|].
  destruct (String.eqb_spec (uuid a) id) as [E|_].
  - exfalso. exact (H a (or_introl eq_refl) E).
  - apply IH. intros m Hm. apply H. right. exact Hm.
Qed.

Lemma disposeFragment_skip (s : App) (id : string) :
  (forall m, In m (meshes s) -> uuid m <> id) -> disposeFragment s id = s.
Proof.
  intros H. unfold disposeFragment. rewrite (find_uuid_none _ _ H). reflexivity.
Qed.

Lemma listed_false (ids : list string) (m : Mesh) :
  listed ids m = false <-> ~ In (uuid m) ids.
Proof.
  unfold listed. split.
  - intros H Hin.
    assert (E : existsb (String.eqb (uuid m)) ids = true).
    { apply existsb_exists. exists (uuid m). split; [exact Hin|].
      apply String.eqb_refl. }
    congruence.
  - intros H. destruct (existsb _ ids) eqn:E; [|reflexivity].
    apply existsb_exists in E. destruct E as [x [Hx Hxe]].
    apply String.eqb_eq in Hxe. subst x. contradiction.
Qed.

Lemma onFragmentsDisposed_skip (ids : list string) (s : App) :
  (forall m, In m (meshes s) -> ~ In (uuid m) ids) ->
  onFragmentsDisposed ids s = s.
Proof.
  unfold onFragmentsDisposed.
  induction ids as [|id ids IH]; intros H; simpl; [reflexivity|].
  rewrite disposeFragment_skip.
  - apply IH. intros m Hm Hin. apply (H m Hm). right. exact Hin.
  - intros m Hm E. apply (H m Hm). left. symmetry. exact E.
Qed.

(** The first match is the mesh the loop deletes, and a set holds it once. *)
Lemma find_first_match (id : string) (l : list Mesh) (m : Mesh) :
  NoDup l ->
  find (fun x => String.eqb (uuid x) id) l = Some m ->
  exists l1 l2,
    l = l1 ++ m :: l2 /\ uuid m = id /\
    (forall x, In x l1 -> uuid x <> id) /\
    JsSet.delete Mesh_eq_dec m l = l1 ++ l2.
Proof.
  unfold JsSet.delete.
  induction l as [|a l IH]; intros Hnd Hf; simpl in Hf; [discriminate|].
  inversion Hnd as [|? ? Hnin Hnd']; subst.
  destruct (String.eqb_spec (uuid a) id) as [E|NE].
  - injection Hf as <-. exists [], l. simpl.
    destruct (Mesh_eq_dec a a) as [_|N]; [|contradiction].
    rewrite notin_remove by exact Hnin. repeat split; auto.
  - destruct (IH Hnd' Hf) as [l1 [l2 [El [Eu [Hl1 Hr]]]]].
    exists (a :: l1), l2. simpl.
    destruct (Mesh_eq_dec m a) as [Ema|_].
    + subst a. contradiction.
    + rewrite Hr, El. repeat split; auto.
      intros x [<-|Hx]; [exact NE | apply Hl1; exact Hx].
Qed.

Lemma delete_distinct (id : string) (l : list Mesh) (m : Mesh) :
  NoDup (map uuid l) ->
  find (fun x => String.eqb (uuid x) id) l = Some m ->
  JsSet.delete Mesh_eq_dec m l = filter (fun x => negb (String.eqb (uuid x) id)) l.
Proof.
  unfold JsSet.delete.
  induction l as [|a l IH]; intros Hnd Hf; simpl in Hf; [discriminate|].
  simpl in Hnd. inversion Hnd as [|? ? Hnin Hnd']; subst. simpl.
  destruct (String.eqb_spec (uuid a) id) as [E|NE]; simpl.
  - injection Hf as <-.
    destruct (Mesh_eq_dec a a) as [_|N]; [|contradiction].
    rewrite notin_remove.
    + symmetry. apply filter_all_true. intros x Hx.
      destruct (String.eqb_spec (uuid x) id) as [Ex|_]; [|reflexivity].
      exfalso. apply Hnin. rewrite E, <- Ex. apply in_map. exact Hx.
    + intros Hin. apply Hnin. apply in_map. exact Hin.
  - destruct (Mesh_eq_dec m a) as [Ema|_].
    + subst a. apply find_some in Hf. destruct Hf as [_ Hf].
      apply String.eqb_eq in Hf. contradiction.
    + f_equal. apply IH; assumption.
Qed.

Lemma meshes_disposeFragment (s : App) (id : string) :
  distinctIds s ->
  meshes (disposeFragment s id)
  = filter (fun x => negb (String.eqb (uuid x) id)) (meshes s).
Proof.
  intros Hd. unfold disposeFragment.
  destruct (find _ (meshes s)) as [m|] eqn:Hf; simpl.
  - apply delete_distinct; assumption.
  - symmetry. apply filter_all_true. intros x Hx.
    destruct (String.eqb_spec (uuid x) id) as [E|_]; [|reflexivity].
    pose proof (find_none _ _ Hf x Hx) as Hn. simpl in Hn.
    rewrite E, String.eqb_refl in Hn. discriminate.
Qed.

Lemma meshes_onFragmentsDisposed (ids : list string) (s : App) :
  distinctIds s ->
  meshes (onFragmentsDisposed ids s)
  = filter (fun m => negb (listed ids m)) (meshes s).
Proof.
  unfold onFragmentsDisposed. revert s.
  induction ids as [|id ids IH]; intros s Hd; simpl.
  - symmetry. apply filter_all_true. reflexivity.
  - rewrite IH.
    + rewrite meshes_disposeFragment by exact Hd.
      rewrite filter_twice. apply filter_ext. intros m.
      unfold listed. simpl. rewrite negb_orb. reflexivity.
    + unfold distinctIds. rewrite meshes_disposeFragment by exact Hd.
      apply NoDup_map_filter. exact Hd.
Qed.

Lemma onFragmentsDisposed_twice (ids : list string) (s : App) :
  distinctIds s ->
  onFragmentsDisposed ids (onFragmentsDisposed ids s) = onFragmentsDisposed ids s.
Proof.
  intros Hd. apply onFragmentsDisposed_skip. intros m Hm.
  rewrite (meshes_onFragmentsDisposed ids s Hd) in Hm.
  apply filter_In in Hm. destruct Hm as [_ Hm].
  apply listed_false. apply negb_true_iff. exact Hm.
Qed.

(** ** The load handler *)

Lemma add_keeps (x y : Mesh) (set : list Mesh) :
  In y set -> In y (JsSet.add Mesh_eq_dec x set).
Proof.
  unfold JsSet.add. intros H.
  destruct (in_dec Mesh_eq_dec x set); [exact H | apply in_or_app; auto].
Qed.

Lemma add_has (x : Mesh) (set : list Mesh) :
  In x (JsSet.add Mesh_eq_dec x set).
Proof.
  unfold JsSet.add.
  destruct (in_dec Mesh_eq_dec x set) as [H|_];
    [exact H | apply in_or_app; right; left; reflexivity].
Qed.

Lemma addAll_keeps (l : list Fragment) (set : list Mesh) (m : Mesh) :
  In m set -> In m (addAll l set).
Proof.
  unfold addAll. revert set.
  induction l as [|f l IH]; intros set H; simpl; [exact H|].
  apply IH. apply add_keeps. exact H.
Qed.

Lemma addAll_has (l : list Fragment) (set : list Mesh) (fragment : Fragment) :
  In fragment l -> In (mesh fragment) (addAll l set).
Proof.
  revert set.
  induction l as [|f l IH]; intros set H; simpl in *; [contradiction|].
  destruct H as [->|H].
  - apply (addAll_keeps l). apply add_has.
  - apply IH. exact H.
Qed.

(** The loop of lines 125-128 cannot fail; it grows [world.meshes] as a set
    and hands every mesh to the visibility culler. *)
Lemma attach_loop (l : list Fragment) (s : App) :
  forEach l (fun fragment =>
               worldMeshesAdd (mesh fragment) ;; cullerAdd (mesh fragment)) s
  = (Fulfilled tt,
     set_culler (set_meshes s (addAll l (meshes s)))
       (Culler.mk (Culler.threshold (culler s)) (Culler.needsUpdate (culler s))
          (Culler.colorMeshes (culler s) ++ map mesh l)
          (Culler.recomputations (culler s)))).
Proof.
  revert s. induction l as [|f l IH]; intros s.
  - simpl. unfold ret. destruct s as [? ? ? ? c ? ? ? ? ?]. destruct c.
    unfold set_culler, set_meshes, addAll. simpl. rewrite app_nil_r.
    reflexivity.
  - simpl forEach. unfold bind at 1. unfold bind at 1.
    unfold worldMeshesAdd, cullerAdd, act.
    rewrite IH. unfold set_culler, set_meshes, Culler.add, addAll. simpl.
    rewrite <- app_assoc. reflexivity.
Qed.

(** Lines 124-137 cannot fail either. *)
Lemma attach_part (model : FragmentsGroup) (s : App) :
  (when (negb (isStreamed model))
     (forEach (items model) (fun fragment =>
        worldMeshesAdd (mesh fragment) ;; cullerAdd (mesh fragment))) ;;
   sceneAdd model ;;
   when (negb (isStreamed model)) (setTimeout FitWorldMeshes 50)) s
  = (Fulfilled tt, attached model s).
Proof.
  unfold attached, when, bind.
  destruct (isStreamed model); simpl.
  - reflexivity.
  - rewrite attach_loop. reflexivity.
Qed.

(** The three ways the handler can end. *)
Lemma onFragmentsLoaded_indexer_rejects
  (ext : Services) (model : FragmentsGroup) (s : App) (e : string) :
  hasProperties model = true ->
  indexer_process ext model = Some e ->
  onFragmentsLoaded ext model s = (Rejected e, s).
Proof.
  intros Hp Hi. unfold onFragmentsLoaded, bind, when, indexerProcess.
  rewrite Hp, Hi. reflexivity.
Qed.

Lemma onFragmentsLoaded_classifier_throws
  (ext : Services) (model : FragmentsGroup) (s : App) (e : string) :
  hasProperties model = true ->
  indexer_process ext model = None ->
  classifier_byEntity ext model = Some e ->
  onFragmentsLoaded ext model s
  = (Rejected e, set_indexed s (indexed s ++ [model])).
Proof.
  intros Hp Hi Hc.
  unfold onFragmentsLoaded, bind, when, indexerProcess, classifierByEntity.
  rewrite Hp, Hi, Hc. reflexivity.
Qed.

Lemma onFragmentsLoaded_fulfilled
  (ext : Services) (model : FragmentsGroup) (s : App) :
  (hasProperties model = true ->
   indexer_process ext model = None /\ classifier_byEntity ext model = None) ->
  onFragmentsLoaded ext model s
  = (Fulfilled tt, attached model (indexedState model s)).
Proof.
  intros Hok. unfold onFragmentsLoaded.
  unfold bind at 1. unfold indexedState.
  destruct (hasProperties model) eqn:Hp.
  - destruct (Hok eq_refl) as [Hi Hc].
    unfold when at 1. unfold bind at 1. unfold indexerProcess, classifierByEntity.
    rewrite Hi, Hc. apply attach_part.
  - unfold when at 1. unfold ret. apply attach_part.
Qed.

(** Whatever the services answer, the handler leaves the dirty flag of the
    visibility culler and the streaming loader as they were. *)
Lemma onFragmentsLoaded_flags (ext : Services) (model : FragmentsGroup) (s : App) :
  Culler.needsUpdate (culler (snd (onFragmentsLoaded ext model s)))
  = Culler.needsUpdate (culler s) /\
  tilesLoader (snd (onFragmentsLoaded ext model s)) = tilesLoader s.
Proof.
  destruct (hasProperties model) eqn:Hp.
  - destruct (indexer_process ext model) as [e|] eqn:Hi.
    + rewrite (onFragmentsLoaded_indexer_rejects ext model s e Hp Hi). auto.
    + destruct (classifier_byEntity ext model) as [e|] eqn:Hc.
      * rewrite (onFragmentsLoaded_classifier_throws ext model s e Hp Hi Hc).
        auto.
      * rewrite onFragmentsLoaded_fulfilled by auto.
        unfold attached, indexedState. rewrite Hp.
        destruct (isStreamed model); auto.
  - rewrite onFragmentsLoaded_fulfilled by (intros; congruence).
    unfold attached, indexedState. rewrite Hp.
    destruct (isStreamed model); auto.
Qed.

Lemma indexedState_frame (model : FragmentsGroup) (s : App) :
  meshes (indexedState model s) = meshes s /\
  sceneChildren (indexedState model s) = sceneChildren s /\
  culler (indexedState model s) = culler s /\
  tilesLoader (indexedState model s) = tilesLoader s /\
  timers (indexedState model s) = timers s /\
  fits (indexedState model s) = fits s.
Proof. unfold indexedState. destruct (hasProperties model); auto 10. Qed.

Lemma attached_nonstreamed (model : FragmentsGroup) (s : App) :
  isStreamed model = false ->
  meshes (attached model s) = addAll (items model) (meshes s) /\
  Culler.colorMeshes (culler (attached model s))
  = Culler.colorMeshes (culler s) ++ map mesh (items model) /\
  In model (sceneChildren (attached model s)) /\
  tilesLoader (attached model s) = tilesLoader s /\
  timers (attached model s) = timers s ++ [mkTimer FitWorldMeshes 50] /\
  fits (attached model s) = fits s.
Proof.
  intros Hs. unfold attached. rewrite Hs. simpl.
  repeat split. apply in_or_app. right. left. reflexivity.
Qed.

Lemma NoDup_delete (x : Mesh) (l : list Mesh) :
  NoDup l -> NoDup (JsSet.delete Mesh_eq_dec x l).
Proof.
  unfold JsSet.delete. induction l as [|a l IH]; intros H; simpl; [constructor|].
  inversion H as [|? ? Hnin Hnd]; subst.
  destruct (Mesh_eq_dec x a); [auto|].
  constructor; [|auto].
  intros Hin. apply in_remove in Hin. tauto.
Qed.

Lemma NoDup_onFragmentsDisposed (ids : list string) (s : App) :
  NoDup (meshes s) -> NoDup (meshes (onFragmentsDisposed ids s)).
Proof.
  unfold onFragmentsDisposed. revert s.
  induction ids as [|id ids IH]; intros s H; simpl; [exact H|].
  apply IH. unfold disposeFragment.
  destruct (find _ (meshes s)); simpl; [apply NoDup_delete|]; exact H.
Qed.

(** ** C1: model disposed *)

(** C1, as worded, fails: after the three fragments of a loaded model are
    disposed, the visibility culler still holds their meshes. *)
Lemma disposal_keeps_culler_entries :
  ~ disposalRemovesEverywhere ["wall"; "slab"; "roof"]
      (dispatch servicesOk (FragmentsLoaded house) blank).
Proof.
  intros [H _].
  destruct (H wallMesh eq_refl) as [_ [Hc _]].
  apply Hc. vm_compute. left. reflexivity.
Qed.

(** C1, amended: when the meshes in [world.meshes] carry pairwise distinct
    uuids, the model-disposed handler removes every mesh whose uuid the
    event lists from [world.meshes] and keeps the others; it leaves the
    visibility culler, the streaming loader with its culler and the scene
    graph as they were; and delivering the same event again changes
    nothing. *)
Theorem disposal_empties_store (fragmentIDs : list string) (s : App) :
  distinctIds s ->
  let s' := onFragmentsDisposed fragmentIDs s in
  (forall m, listed fragmentIDs m = true -> ~ inStore m s') /\
  (forall m, inStore m s -> listed fragmentIDs m = false -> inStore m s') /\
  culler s' = culler s /\
  tilesLoader s' = tilesLoader s /\
  sceneChildren s' = sceneChildren s /\
  onFragmentsDisposed fragmentIDs s' = s'.
Proof.
  intros Hd s'. subst s'. unfold inStore.
  pose proof (onFragmentsDisposed_frame fragmentIDs s) as Hf.
  unfold onlyMeshesChanged in Hf.
  repeat split.
  - intros m Hl Hin. rewrite meshes_onFragmentsDisposed in Hin by exact Hd.
    apply filter_In in Hin. destruct Hin as [_ Hn].
    rewrite Hl in Hn. discriminate.
  - intros m Hin Hl. rewrite meshes_onFragmentsDisposed by exact Hd.
    apply filter_In. rewrite Hl. auto.
  - rewrite Hf. reflexivity.
  - rewrite Hf. reflexivity.
  - rewrite Hf. reflexivity.
  - apply onFragmentsDisposed_twice. exact Hd.
Qed.

Lemma disposal_empties_store_witness :
  distinctIds (dispatch servicesOk (FragmentsLoaded house) blank) /\
  onFragmentsDisposed ["wall"; "slab"; "roof"]
    (onFragmentsDisposed ["wall"; "slab"; "roof"]
       (dispatch servicesOk (FragmentsLoaded house) blank))
  = onFragmentsDisposed ["wall"; "slab"; "roof"]
      (dispatch servicesOk (FragmentsLoaded house) blank).
Proof.
  assert (Hids : distinctIds (dispatch servicesOk (FragmentsLoaded house) blank))
    by (unfold distinctIds; distinct_constants).
  split; [exact Hids|].
  apply (disposal_empties_store ["wall"; "slab"; "roof"] _ Hids).
Defined.

(** ** C9: what the disposed handler mutates *)

(** C9, as worded, fails in its last clause: with two mesh objects of one
    uuid in [world.meshes], each delivery removes one of them. *)
Lemma redelivery_removes_twin :
  ~ redeliveryUnchanged ["wall"]
      (dispatch servicesOk (FragmentsLoaded annex)
         (dispatch servicesOk (FragmentsLoaded house) blank)).
Proof.
  unfold redeliveryUnchanged. intros H.
  apply (f_equal meshes) in H. vm_compute in H. discriminate.
Qed.

(** C9, amended: the model-disposed handler changes [world.meshes] and
    nothing else; a turn of its loop whose identifier matches no mesh
    leaves the state as it is, and a turn whose identifier matches removes
    the first matching mesh only; re-delivering the event leaves the state
    unchanged when the meshes in [world.meshes] carry pairwise distinct
    uuids. *)
Theorem disposal_touches_only_meshes (fragmentIDs : list string) (s : App) :
  NoDup (meshes s) ->
  onlyMeshesChanged s (onFragmentsDisposed fragmentIDs s) /\
  NoDup (meshes (onFragmentsDisposed fragmentIDs s)) /\
  (forall id, (forall m, In m (meshes s) -> uuid m <> id) ->
              disposeFragment s id = s) /\
  (forall id m,
     find (fun x => String.eqb (uuid x) id) (meshes s) = Some m ->
     exists l1 l2,
       meshes s = l1 ++ m :: l2 /\ uuid m = id /\
       (forall x, In x l1 -> uuid x <> id) /\
       meshes (disposeFragment s id) = l1 ++ l2) /\
  (distinctIds s -> redeliveryUnchanged fragmentIDs s).
Proof.
  intros Hnd. repeat split.
  - apply onFragmentsDisposed_frame.
  - apply NoDup_onFragmentsDisposed. exact Hnd.
  - apply disposeFragment_skip.
  - intros id m Hf.
    destruct (find_first_match id (meshes s) m Hnd Hf)
      as [l1 [l2 [El [Eu [Hl1 Hr]]]]].
    exists l1, l2. unfold disposeFragment. rewrite Hf. simpl. auto.
  - apply onFragmentsDisposed_twice.
Qed.

Lemma disposal_touches_only_meshes_witness :
  NoDup (meshes (dispatch servicesOk (FragmentsLoaded house) blank)) /\
  onlyMeshesChanged
    (dispatch servicesOk (FragmentsLoaded house) blank)
    (onFragmentsDisposed ["slab"; "door"]
       (dispatch servicesOk (FragmentsLoaded house) blank)).
Proof.
  assert (Hset : NoDup (meshes (dispatch servicesOk (FragmentsLoaded house) blank)))
    by distinct_constants.
  split; [exact Hset|].
  exact (proj1 (disposal_touches_only_meshes ["slab"; "door"]
                  (dispatch servicesOk (FragmentsLoaded house) blank) Hset)).
Defined.

(** ** C2: a non-streamed model is loaded *)

(** C2, as worded, fails: no fragment of the loaded model is registered
    with the culler of the streaming loader. *)
Lemma load_skips_streaming_culler :
  ~ loadRegistersEverywhere servicesOk house blank.
Proof.
  intros H. destruct (H eq_refl) as [Hf _].
  destruct (Hf (mkFragment wallMesh) (or_introl eq_refl)) as [_ [_ Hs]].
  vm_compute in Hs. exact Hs.
Qed.

(** C2, amended: for a non-streamed model whose semantic step, if it has
    one, succeeds, the model-loaded handler ends normally, every fragment's
    mesh is in [world.meshes], handed to the visibility culler and in the
    scene graph through the model, the streaming loader and its culler are
    left untouched, the handler itself fits nothing but schedules exactly
    one 50 ms timer, and that timer's callback issues one camera-fit, with
    margin 0.8, over [world.meshes], which holds every mesh of the model. *)
Theorem load_registers_fragments
  (ext : Services) (model : FragmentsGroup) (s : App) :
  isStreamed model = false ->
  (hasProperties model = true ->
   indexer_process ext model = None /\ classifier_byEntity ext model = None) ->
  let s' := snd (onFragmentsLoaded ext model s) in
  fst (onFragmentsLoaded ext model s) = Fulfilled tt /\
  (forall fragment, In fragment (items model) ->
     inStore (mesh fragment) s' /\
     inVisibilityCuller (mesh fragment) s' /\
     inSceneGraph (mesh fragment) s') /\
  tilesLoader s' = tilesLoader s /\
  timers s' = timers s ++ [mkTimer FitWorldMeshes 50] /\
  fits s' = fits s /\
  fits (runCallback FitWorldMeshes s')
  = fits s ++ [mkFit (meshes s') (8 # 10)%Q].
Proof.
  intros Hs Hok s'. subst s'.
  rewrite (onFragmentsLoaded_fulfilled ext model s Hok). simpl fst. simpl snd.
  destruct (indexedState_frame model s) as [Im [Ic [Icu [Il [It If_]]]]].
  destruct (attached_nonstreamed model (indexedState model s) Hs)
    as [Am [Ac [Asc [Al [At Af]]]]].
  split; [reflexivity|]. split; [|split; [|split; [|split]]].
  - intros fragment Hin. unfold inStore, inVisibilityCuller, inSceneGraph.
    rewrite Am, Ac. repeat split.
    + apply addAll_has. exact Hin.
    + apply in_or_app. right. apply in_map. exact Hin.
    + exists model. split; [exact Asc | apply in_map; exact Hin].
  - rewrite Al. exact Il.
  - rewrite At, It. reflexivity.
  - rewrite Af. exact If_.
  - unfold runCallback. simpl. rewrite Af, If_. reflexivity.
Qed.

Lemma load_registers_fragments_witness :
  isStreamed house = false /\
  timers (snd (onFragmentsLoaded servicesOk house blank))
  = timers blank ++ [mkTimer FitWorldMeshes 50].
Proof.
  split; [reflexivity|].
  apply (load_registers_fragments servicesOk house blank).
  - reflexivity.
  - intros _. split; reflexivity.
Defined.

(** ** C3: the semantic step fails *)

(** C3, as worded, fails: when [indexer.process] rejects, the handler is
    rejected and the model never reaches the scene. *)
Lemma indexing_failure_blocks_geometry :
  ~ indexingFailureHarmless indexerDown annex blank.
Proof.
  intros H. destruct H as [Hf _].
  - reflexivity.
  - left. discriminate.
  - vm_compute in Hf. discriminate.
Qed.

(** C3, amended: for a loaded model with [hasProperties], a failure of the
    semantic step ends the handler at that point.  The handler neither
    catches nor logs the failure, it is rejected with it; none of the
    model's geometry is added: [world.meshes], the visibility culler, the
    scene graph, the pending timers and the camera-fits are as before the
    event. *)
Theorem indexing_failure_aborts_handler
  (ext : Services) (model : FragmentsGroup) (s : App) (e : string) :
  hasProperties model = true ->
  indexer_process ext model = Some e \/
  (indexer_process ext model = None /\ classifier_byEntity ext model = Some e) ->
  let s' := snd (onFragmentsLoaded ext model s) in
  fst (onFragmentsLoaded ext model s) = Rejected e /\
  meshes s' = meshes s /\
  culler s' = culler s /\
  sceneChildren s' = sceneChildren s /\
  timers s' = timers s /\
  fits s' = fits s.
Proof.
  intros Hp [Hi|[Hi Hc]] s'; subst s'.
  - rewrite (onFragmentsLoaded_indexer_rejects ext model s e Hp Hi).
    simpl. auto 10.
  - rewrite (onFragmentsLoaded_classifier_throws ext model s e Hp Hi Hc).
    simpl. auto 10.
Qed.

Lemma indexing_failure_aborts_handler_witness :
  hasProperties annex = true /\
  sceneChildren (snd (onFragmentsLoaded indexerDown annex blank))
  = sceneChildren blank.
Proof.
  split; [reflexivity|].
  apply (indexing_failure_aborts_handler indexerDown annex blank
           "indexing failed").
  - reflexivity.
  - left. reflexivity.
Defined.

(** ** C4: camera rest *)

(** C4: a camera-rest event raises the dirty flag of the visibility culler
    and of the streaming culler and the cancel flag of the streaming
    loader, and changes nothing else; with the flag raised, a load that was
    in flight is abandoned when it completes: the fragment is left
    Unloaded, whether or not it is still wanted. *)
Theorem rest_marks_cullers_and_cancels (ext : Services) (s : App) :
  let s' := dispatch ext CameraRest s in
  Culler.needsUpdate (culler s') = true /\
  TileCuller.needsUpdate (Streamer.culler (tilesLoader s')) = true /\
  Streamer.cancel (tilesLoader s') = true /\
  (forall wanted,
     streamStep (Streamer.cancel (tilesLoader s')) Loading (LoadCompleted wanted)
     = Unloaded) /\
  s' = set_tilesLoader
         (set_culler s (Culler.set_needsUpdate true (culler s)))
         (Streamer.mk true
            (TileCuller.set_needsUpdate true (Streamer.culler (tilesLoader s)))).
Proof.
  simpl. unfold onRest. simpl. repeat split.
Qed.

(** ** C5: residency transitions *)

(** C5, as worded, fails: a completion that finds the cancel flag raised
    takes the fragment from Loading straight back to Unloaded. *)
Lemma cancelled_load_leaves_cycle :
  ~ cycleOnly true Loading (LoadCompleted true).
Proof.
  unfold cycleOnly. simpl. intros [H|H]; discriminate.
Qed.

Lemma streamStep_edges (cancel : bool) (r : Residency) (e : StreamStep) :
  streamStep cancel r e = r \/
  onCycle r (streamStep cancel r e) = true \/
  (r = Loading /\ streamStep cancel r e = Unloaded).
Proof.
  destruct r, e; simpl; auto.
  destruct (cancel || negb wanted); auto.
Qed.

(** C5, amended: every step of a fragment's residency either leaves it as
    it is, follows the cycle Unloaded, Loading, Resident, Evicting,
    Unloaded, or takes a Loading fragment back to Unloaded (a load that is
    cancelled, no longer wanted or failed); along every run no other change
    is observed, in particular none from Resident to Unloaded and none from
    Loading to Evicting. *)
Theorem residency_edges (r : Residency) (run : list (bool * StreamStep)) :
  Forall (fun edge =>
            onCycle (fst edge) (snd edge) = true \/ edge = (Loading, Unloaded))
         (observedEdges r run) /\
  ~ In (Resident, Unloaded) (observedEdges r run) /\
  ~ In (Loading, Evicting) (observedEdges r run).
Proof.
  assert (Hall : forall run r,
    Forall (fun edge =>
              onCycle (fst edge) (snd edge) = true \/ edge = (Loading, Unloaded))
           (observedEdges r run)).
  { clear. intros run. induction run as [|[cancel e] run IH]; intros r; simpl.
    - constructor.
    - destruct (streamStep_edges cancel r e) as [E|[E|[E1 E2]]].
      + rewrite E. destruct r; apply IH.
      + destruct (streamStep cancel r e) eqn:Es; destruct r; simpl in E;
          try discriminate E; (constructor; [left; reflexivity | apply IH]).
      + subst r. rewrite E2. constructor; [right; reflexivity | apply IH]. }
  split; [apply Hall|].
  pose proof (Hall run r) as H. rewrite Forall_forall in H.
  split; intros Hin; apply H in Hin; simpl in Hin;
    destruct Hin as [Hc|Hc]; discriminate.
Qed.

(** ** C6: when the visibility culler is signalled *)

(** C6, as worded, fails: the model-disposed event removes meshes and the
    dirty flag of the visibility culler stays down. *)
Lemma disposal_does_not_signal_culler :
  ~ signalsVisibilityCuller servicesOk (FragmentsDisposed ["wall"])
      (dispatch servicesOk (FragmentsLoaded house) blank).
Proof.
  unfold signalsVisibilityCuller. vm_compute. discriminate.
Qed.

(** C6, amended: of the events the program handles, only camera rest
    signals the visibility culler dirty.  The model-loaded handler hands
    meshes to the culler and leaves its [needsUpdate] as it was, the
    model-disposed handler and the timer callback do not touch the culler
    at all.  The culler is recomputed only when so signalled: a frame that
    finds the flag down changes nothing, a frame that finds it raised
    recomputes once and lowers it. *)
Theorem culler_signalled_on_rest_only (ext : Services) (s : App) :
  Culler.needsUpdate (culler (dispatch ext CameraRest s)) = true /\
  (forall model,
     Culler.needsUpdate (culler (dispatch ext (FragmentsLoaded model) s))
     = Culler.needsUpdate (culler s)) /\
  (forall fragmentIDs,
     culler (dispatch ext (FragmentsDisposed fragmentIDs) s) = culler s) /\
  culler (dispatch ext TimerFired s) = culler s /\
  (Culler.needsUpdate (culler s) = false ->
   frameElapsed (culler s) = culler s) /\
  (Culler.needsUpdate (culler s) = true ->
   Culler.recomputations (frameElapsed (culler s))
   = S (Culler.recomputations (culler s)) /\
   frameElapsed (frameElapsed (culler s)) = frameElapsed (culler s)).
Proof.
  split; [reflexivity|]. split; [|split; [|split; [|split]]].
  - intros model. simpl. apply onFragmentsLoaded_flags.
  - intros ids. simpl.
    pose proof (onFragmentsDisposed_frame ids s) as Hf.
    unfold onlyMeshesChanged in Hf. rewrite Hf. reflexivity.
  - simpl. unfold fireTimer.
    destruct (timers s) as [|[[] d] rest]; reflexivity.
  - intros H. unfold frameElapsed. rewrite H. reflexivity.
  - intros H. unfold frameElapsed. rewrite H. simpl. split; reflexivity.
Qed.

Lemma culler_signalled_on_rest_only_witness :
  Culler.needsUpdate (culler blank) = false /\
  frameElapsed (culler blank) = culler blank.
Proof.
  split; [reflexivity|].
  exact (proj1 (proj2 (proj2 (proj2 (proj2
           (culler_signalled_on_rest_only servicesOk blank))))) eq_refl).
Defined.

(** ** C7: selecting the empty set *)

(** C7: the script sets [zoomToSelection], and in every state, that one
    included, [select] with an empty identifier set leaves the selection
    and the highlight empty and asks for no camera-fit: the highlighter's
    zoom requests, the camera-fits and the pending timers are as before. *)
Theorem select_empty_clears_without_fit (base : App) (augment : bool) (s : App) :
  Highlighter.zoomToSelection (highlighter (configure base)) = true /\
  (let s' := select [] augment s in
   Highlighter.selection (highlighter s') = [] /\
   Highlighter.highlighted (highlighter s') = [] /\
   Highlighter.zoomRequests (highlighter s')
   = Highlighter.zoomRequests (highlighter s) /\
   Highlighter.zoomToSelection (highlighter s')
   = Highlighter.zoomToSelection (highlighter s) /\
   fits s' = fits s /\ timers s' = timers s /\ meshes s' = meshes s) /\
  (let c := select [] augment (configure base) in
   Highlighter.zoomToSelection (highlighter c) = true /\
   Highlighter.selection (highlighter c) = [] /\
   Highlighter.highlighted (highlighter c) = [] /\
   Highlighter.zoomRequests (highlighter c)
   = Highlighter.zoomRequests (highlighter base) /\
   fits c = fits base).
Proof.
  repeat split.
Qed.

(** ** C8: the eviction windows *)

(** C8: the script installs [maxHiddenTime = 1000] and
    [maxLostTime = 40000] in the streaming culler, so the second exceeds
    the first; nothing enforces that order: the two assignments store any
    pair of values as given, one with [maxLostTime <= maxHiddenTime]
    included. *)
Theorem lost_time_exceeds_hidden_time_unenforced (base : App) :
  let c := Streamer.culler (tilesLoader (configure base)) in
  TileCuller.maxHiddenTime c = 1000%Z /\
  TileCuller.maxLostTime c = 40000%Z /\
  (TileCuller.maxLostTime c > TileCuller.maxHiddenTime c)%Z /\
  TileCuller.threshold c = 10%Z /\
  (forall (hidden lost : Z) (c0 : TileCuller.t),
     let c1 := TileCuller.set_maxLostTime lost
                 (TileCuller.set_maxHiddenTime hidden c0) in
     TileCuller.maxHiddenTime c1 = hidden /\ TileCuller.maxLostTime c1 = lost) /\
  (let c1 := TileCuller.set_maxLostTime 1000
               (TileCuller.set_maxHiddenTime 40000 c) in
   (TileCuller.maxLostTime c1 <= TileCuller.maxHiddenTime c1)%Z).
Proof.
  simpl. repeat split; try reflexivity. discriminate.
Qed.

(** * Further properties of the handlers *)

(** ** Runs *)

Lemma run_invariant (ext : Services) (P : App -> Prop) :
  (forall e s, P s -> P (dispatch ext e s)) ->
  forall events s, P s -> P (run ext events s).
Proof.
  intros Hstep events. unfold run.
  induction events as [|e events IH]; intros s H; simpl; [exact H|].
  apply IH. apply Hstep. exact H.
Qed.

Lemma run_preorder (ext : Services) (R : App -> App -> Prop) :
  (forall s, R s s) ->
  (forall a b c, R a b -> R b c -> R a c) ->
  (forall e s, R s (dispatch ext e s)) ->
  forall events s, R s (run ext events s).
Proof.
  intros Hrefl Htrans Hstep events. unfold run.
  induction events as [|e events IH]; intros s; simpl; [apply Hrefl|].
  eapply Htrans; [apply Hstep | apply IH].
Qed.

(** How a model-loaded event leaves the state. *)
Lemma dispatch_loaded_eq (ext : Services) (model : FragmentsGroup) (s : App) :
  dispatch ext (FragmentsLoaded model) s
  = if semanticsSucceed ext model
    then attached model (indexedState model s)
    else match indexer_process ext model with
         | Some _ => s
         | None => set_indexed s (indexed s ++ [model])
         end.
Proof.
  unfold semanticsSucceed. simpl dispatch.
  destruct (hasProperties model) eqn:Hp; simpl.
  - destruct (indexer_process ext model) as [e|] eqn:Hi.
    + rewrite (onFragmentsLoaded_indexer_rejects ext model s e Hp Hi).
      reflexivity.
    + destruct (classifier_byEntity ext model) as [e|] eqn:Hc.
      * rewrite (onFragmentsLoaded_classifier_throws ext model s e Hp Hi Hc).
        reflexivity.
      * rewrite onFragmentsLoaded_fulfilled by auto. reflexivity.
  - rewrite onFragmentsLoaded_fulfilled by (intros; congruence). reflexivity.
Qed.

Lemma dispatch_disposed_frame (ext : Services) (ids : list string) (s : App) :
  dispatch ext (FragmentsDisposed ids) s
  = set_meshes s (meshes (onFragmentsDisposed ids s)).
Proof. simpl. apply onFragmentsDisposed_frame. Qed.

(** ** The set [world.meshes] under the load loop *)

Lemma add_NoDup (x : Mesh) (set : list Mesh) :
  NoDup set -> NoDup (JsSet.add Mesh_eq_dec x set).
Proof.
  unfold JsSet.add. intros H.
  destruct (in_dec Mesh_eq_dec x set) as [Hin|Hnin]; [exact H|].
  apply NoDup_app; [exact H | repeat constructor; intros [] |].
  intros a Ha [<-|[]]. contradiction.
Qed.

Lemma addAll_grows (l : list Fragment) (set : list Mesh) :
  exists extra,
    addAll l set = set ++ extra /\
    (forall m, In m extra -> In m (map mesh l) /\ ~ In m set).
Proof.
  unfold addAll. revert set.
  induction l as [|f l IH]; intros set; simpl.
  - exists []. rewrite app_nil_r. split; [reflexivity | intros m []].
  - destruct (IH (JsSet.add Mesh_eq_dec (mesh f) set)) as [extra [E Hex]].
    unfold JsSet.add in *.
    destruct (in_dec Mesh_eq_dec (mesh f) set) as [Hin|Hnin].
    + exists extra. split; [exact E|].
      intros m Hm. destruct (Hex m Hm). auto.
    + exists (mesh f :: extra). split.
      * rewrite E, <- app_assoc. reflexivity.
      * intros m [<-|Hm]; [auto|].
        destruct (Hex m Hm) as [H1 H2]. split; [auto|].
        intros Hin. apply H2. apply in_or_app. auto.
Qed.

Lemma addAll_NoDup (l : list Fragment) (set : list Mesh) :
  NoDup set -> NoDup (addAll l set).
Proof.
  unfold addAll. revert set.
  induction l as [|f l IH]; intros set H; simpl; [exact H|].
  apply IH. apply add_NoDup. exact H.
Qed.

Lemma addAll_present (l : list Fragment) (set : list Mesh) :
  (forall fragment, In fragment l -> In (mesh fragment) set) ->
  addAll l set = set.
Proof.
  unfold addAll. induction l as [|f l IH]; intros H; simpl; [reflexivity|].
  unfold JsSet.add at 2.
  destruct (in_dec Mesh_eq_dec (mesh f) set) as [_|Hnin].
  - apply IH. intros g Hg. apply H. right. exact Hg.
  - exfalso. apply Hnin. apply H. left. reflexivity.
Qed.

Lemma addAll_fresh (l : list Fragment) (set : list Mesh) :
  NoDup (map uuid (set ++ map mesh l)) ->
  addAll l set = set ++ map mesh l.
Proof.
  unfold addAll. revert set.
  induction l as [|f l IH]; intros set H; simpl.
  - rewrite app_nil_r. reflexivity.
  - assert (Hnin : ~ In (mesh f) set).
    { intros Hin. rewrite map_app in H. simpl in H.
      apply NoDup_remove_2 in H. apply H. apply in_or_app. left.
      apply in_map. exact Hin. }
    unfold JsSet.add at 2.
    destruct (in_dec Mesh_eq_dec (mesh f) set) as [Hin|_]; [contradiction|].
    rewrite IH; rewrite <- app_assoc; [reflexivity | exact H].
Qed.

Lemma attached_meshes (model : FragmentsGroup) (s : App) :
  meshes (attached model s)
  = if isStreamed model then meshes s else addAll (items model) (meshes s).
Proof. unfold attached. destruct (isStreamed model); reflexivity. Qed.

Lemma attached_sceneChildren (model : FragmentsGroup) (s : App) :
  sceneChildren (attached model s)
  = remove FragmentsGroup_eq_dec model (sceneChildren s) ++ [model].
Proof. unfold attached. destruct (isStreamed model); reflexivity. Qed.

Lemma attached_colorMeshes (model : FragmentsGroup) (s : App) :
  Culler.colorMeshes (culler (attached model s))
  = Culler.colorMeshes (culler s)
    ++ (if isStreamed model then [] else map mesh (items model)).
Proof.
  unfold attached. destruct (isStreamed model); simpl;
    [rewrite app_nil_r|]; reflexivity.
Qed.

(** ** X1: the load handler and the set [world.meshes] *)

(** X1: a model-loaded event keeps the meshes already in [world.meshes] in
    their place and appends, after them, only meshes of the model that were
    not there yet; no mesh object is ever held twice. *)
Theorem load_appends_new_meshes
  (ext : Services) (model : FragmentsGroup) (s : App) :
  NoDup (meshes s) ->
  let s' := dispatch ext (FragmentsLoaded model) s in
  NoDup (meshes s') /\
  exists extra,
    meshes s' = meshes s ++ extra /\
    (forall m, In m extra -> In m (map mesh (items model)) /\ ~ In m (meshes s)).
Proof.
  intros Hnd s'. subst s'. rewrite dispatch_loaded_eq.
  assert (Hsame : forall t, meshes t = meshes s ->
            NoDup (meshes t) /\
            exists extra, meshes t = meshes s ++ extra /\
              (forall m, In m extra ->
                 In m (map mesh (items model)) /\ ~ In m (meshes s))).
  { intros t Ht. rewrite Ht. split; [exact Hnd|].
    exists []. rewrite app_nil_r. split; [reflexivity | intros m []]. }
  destruct (semanticsSucceed ext model).
  - destruct (indexedState_frame model s) as [Im _].
    destruct (isStreamed model) eqn:Hs.
    + apply Hsame. rewrite attached_meshes, Hs. exact Im.
    + rewrite attached_meshes, Hs, Im. split.
      * apply addAll_NoDup. exact Hnd.
      * apply addAll_grows.
  - destruct (indexer_process ext model); apply Hsame; reflexivity.
Qed.

Lemma load_appends_new_meshes_witness :
  NoDup (meshes (dispatch servicesOk (FragmentsLoaded house) blank)) /\
  NoDup (meshes (dispatch servicesOk (FragmentsLoaded annex)
                   (dispatch servicesOk (FragmentsLoaded house) blank))).
Proof.
  assert (Hset : NoDup (meshes (dispatch servicesOk (FragmentsLoaded house) blank)))
    by distinct_constants.
  split; [exact Hset|].
  exact (proj1 (load_appends_new_meshes servicesOk annex
                  (dispatch servicesOk (FragmentsLoaded house) blank) Hset)).
Defined.

(** ** X2: a streamed model *)

(** X2: for a streamed model the load handler registers no mesh and
    schedules no camera-fit: [world.meshes], the visibility culler, the
    streaming loader, the pending timers and the camera-fits are as before;
    the model is appended to the scene when the semantic step goes through,
    and the scene too is unchanged when it fails. *)
Theorem streamed_load_only_touches_scene
  (ext : Services) (model : FragmentsGroup) (s : App) :
  isStreamed model = true ->
  let s' := dispatch ext (FragmentsLoaded model) s in
  meshes s' = meshes s /\
  culler s' = culler s /\
  tilesLoader s' = tilesLoader s /\
  timers s' = timers s /\
  fits s' = fits s /\
  (semanticsSucceed ext model = true ->
   sceneChildren s'
   = remove FragmentsGroup_eq_dec model (sceneChildren s) ++ [model]) /\
  (semanticsSucceed ext model = false -> sceneChildren s' = sceneChildren s).
Proof.
  intros Hs s'. subst s'. rewrite dispatch_loaded_eq.
  destruct (semanticsSucceed ext model).
  - unfold attached, indexedState. rewrite Hs.
    destruct (hasProperties model); simpl; repeat split; discriminate.
  - destruct (indexer_process ext model); simpl; repeat split; discriminate.
Qed.

Lemma streamed_load_only_touches_scene_witness :
  isStreamed tower = true /\
  timers (dispatch servicesOk (FragmentsLoaded tower) blank) = timers blank.
Proof.
  split; [reflexivity|].
  apply (streamed_load_only_touches_scene servicesOk tower blank).
  reflexivity.
Defined.

(** ** X3: loading a model again *)

Lemma remove_readd (model : FragmentsGroup) (l : list FragmentsGroup) :
  remove FragmentsGroup_eq_dec model
    (remove FragmentsGroup_eq_dec model l ++ [model]) ++ [model]
  = remove FragmentsGroup_eq_dec model l ++ [model].
Proof.
  rewrite remove_app, remove_remove_eq. simpl.
  destruct (FragmentsGroup_eq_dec model model) as [_|N]; [|contradiction].
  rewrite app_nil_r. reflexivity.
Qed.

(** X3: when a non-streamed model is delivered a second time,
    [world.meshes] and the scene children stay as the first delivery left
    them.  If the model's semantic step goes through (or it has no
    properties), every mesh is handed to the visibility culler again and
    one more camera-fit timer is scheduled; if the step fails, the second
    delivery hands nothing to the culler and schedules nothing. *)
Theorem reload_keeps_store_and_scene
  (ext : Services) (model : FragmentsGroup) (s : App) :
  isStreamed model = false ->
  let s1 := dispatch ext (FragmentsLoaded model) s in
  let s2 := dispatch ext (FragmentsLoaded model) s1 in
  meshes s2 = meshes s1 /\
  sceneChildren s2 = sceneChildren s1 /\
  (semanticsSucceed ext model = true ->
   Culler.colorMeshes (culler s2)
   = Culler.colorMeshes (culler s1) ++ map mesh (items model) /\
   timers s2 = timers s1 ++ [mkTimer FitWorldMeshes 50]) /\
  (semanticsSucceed ext model = false ->
   culler s2 = culler s1 /\ timers s2 = timers s1).
Proof.
  intros Hs s1 s2. subst s2 s1.
  rewrite !dispatch_loaded_eq.
  destruct (semanticsSucceed ext model) eqn:Hok.
  - set (s1 := attached model (indexedState model s)).
    destruct (indexedState_frame model s1) as [Im [Isc [Icu [_ [It _]]]]].
    split; [|split; [|split]].
    + rewrite attached_meshes, Hs, Im. apply addAll_present.
      intros fragment Hin. unfold s1. rewrite attached_meshes, Hs.
      apply addAll_has. exact Hin.
    + rewrite attached_sceneChildren, Isc. unfold s1.
      rewrite attached_sceneChildren. apply remove_readd.
    + intros _. split.
      * rewrite attached_colorMeshes, Hs, Icu. reflexivity.
      * destruct (attached_nonstreamed model (indexedState model s1) Hs)
          as [_ [_ [_ [_ [At _]]]]].
        rewrite At, It. reflexivity.
    + discriminate.
  - destruct (indexer_process ext model); simpl;
      (split; [reflexivity|]); (split; [reflexivity|]);
      (split; [discriminate | auto]).
Qed.

Lemma reload_keeps_store_and_scene_witness :
  isStreamed house = false /\
  meshes (dispatch servicesOk (FragmentsLoaded house)
            (dispatch servicesOk (FragmentsLoaded house) blank))
  = meshes (dispatch servicesOk (FragmentsLoaded house) blank).
Proof.
  split; [reflexivity|].
  apply (reload_keeps_store_and_scene servicesOk house blank).
  reflexivity.
Defined.

(** ** What no event changes *)

(** No event writes the settings of the script, and only camera rest writes
    a flag. *)
Lemma dispatch_settings (ext : Services) (e : Event) (s : App) :
  let s' := dispatch ext e s in
  highlighter s' = highlighter s /\
  restThreshold s' = restThreshold s /\
  Culler.threshold (culler s') = Culler.threshold (culler s) /\
  TileCuller.threshold (Streamer.culler (tilesLoader s'))
  = TileCuller.threshold (Streamer.culler (tilesLoader s)) /\
  TileCuller.maxHiddenTime (Streamer.culler (tilesLoader s'))
  = TileCuller.maxHiddenTime (Streamer.culler (tilesLoader s)) /\
  TileCuller.maxLostTime (Streamer.culler (tilesLoader s'))
  = TileCuller.maxLostTime (Streamer.culler (tilesLoader s)) /\
  (e <> CameraRest ->
   tilesLoader s' = tilesLoader s /\
   Culler.needsUpdate (culler s') = Culler.needsUpdate (culler s)).
Proof.
  destruct e as [|model|ids|]; cbv zeta.
  - simpl. repeat split; congruence.
  - rewrite dispatch_loaded_eq.
    destruct (semanticsSucceed ext model).
    + unfold attached, indexedState.
      destruct (isStreamed model), (hasProperties model); simpl; repeat split.
    + destruct (indexer_process ext model); simpl; repeat split.
  - rewrite dispatch_disposed_frame. simpl. repeat split.
  - simpl. unfold fireTimer.
    destruct (timers s) as [|[[] d] rest]; simpl; repeat split.
Qed.

(** ** X4: the settings survive every run *)

(** X4: whatever events follow, the values the script installs stay in
    force: the streaming culler's threshold 10, [maxHiddenTime] 1000 and
    [maxLostTime] 40000, the visibility culler's threshold 5, the camera's
    rest threshold 0.25 and [zoomToSelection]. *)
Theorem settings_survive_every_run
  (ext : Services) (events : list Event) (base : App) :
  let s := run ext events (configure base) in
  TileCuller.threshold (Streamer.culler (tilesLoader s)) = 10%Z /\
  TileCuller.maxHiddenTime (Streamer.culler (tilesLoader s)) = 1000%Z /\
  TileCuller.maxLostTime (Streamer.culler (tilesLoader s)) = 40000%Z /\
  Culler.threshold (culler s) = 5%Z /\
  restThreshold s = (1 # 4)%Q /\
  Highlighter.zoomToSelection (highlighter s) = true.
Proof.
  cbv zeta.
  apply (run_invariant ext (fun s =>
    TileCuller.threshold (Streamer.culler (tilesLoader s)) = 10%Z /\
    TileCuller.maxHiddenTime (Streamer.culler (tilesLoader s)) = 1000%Z /\
    TileCuller.maxLostTime (Streamer.culler (tilesLoader s)) = 40000%Z /\
    Culler.threshold (culler s) = 5%Z /\
    restThreshold s = (1 # 4)%Q /\
    Highlighter.zoomToSelection (highlighter s) = true)).
  - intros e s [H1 [H2 [H3 [H4 [H5 H6]]]]].
    destruct (dispatch_settings ext e s) as [Eh [Er [Ec [Et [Em [El _]]]]]].
    rewrite Eh, Er, Ec, Et, Em, El. auto 10.
  - repeat split.
Qed.

(** ** X5: the flags are never lowered *)

Lemma dispatch_flags (ext : Services) (e : Event) (s : App) :
  let s' := dispatch ext e s in
  (Streamer.cancel (tilesLoader s) = true ->
   Streamer.cancel (tilesLoader s') = true) /\
  (TileCuller.needsUpdate (Streamer.culler (tilesLoader s)) = true ->
   TileCuller.needsUpdate (Streamer.culler (tilesLoader s')) = true) /\
  (Culler.needsUpdate (culler s) = true ->
   Culler.needsUpdate (culler s') = true).
Proof.
  destruct e as [|model|ids|].
  - simpl. repeat split.
  - destruct (dispatch_settings ext (FragmentsLoaded model) s)
      as [_ [_ [_ [_ [_ [_ H]]]]]].
    destruct H as [Ht Hn]; [discriminate|]. cbv zeta. rewrite Ht, Hn. auto.
  - destruct (dispatch_settings ext (FragmentsDisposed ids) s)
      as [_ [_ [_ [_ [_ [_ H]]]]]].
    destruct H as [Ht Hn]; [discriminate|]. cbv zeta. rewrite Ht, Hn. auto.
  - destruct (dispatch_settings ext TimerFired s)
      as [_ [_ [_ [_ [_ [_ H]]]]]].
    destruct H as [Ht Hn]; [discriminate|]. cbv zeta. rewrite Ht, Hn. auto.
Qed.

Lemma run_flags (ext : Services) (events : list Event) (s : App) :
  (Streamer.cancel (tilesLoader s) = true ->
   Streamer.cancel (tilesLoader (run ext events s)) = true) /\
  (TileCuller.needsUpdate (Streamer.culler (tilesLoader s)) = true ->
   TileCuller.needsUpdate (Streamer.culler (tilesLoader (run ext events s))) = true) /\
  (Culler.needsUpdate (culler s) = true ->
   Culler.needsUpdate (culler (run ext events s)) = true).
Proof.
  apply (run_preorder ext (fun a b =>
    (Streamer.cancel (tilesLoader a) = true ->
     Streamer.cancel (tilesLoader b) = true) /\
    (TileCuller.needsUpdate (Streamer.culler (tilesLoader a)) = true ->
     TileCuller.needsUpdate (Streamer.culler (tilesLoader b)) = true) /\
    (Culler.needsUpdate (culler a) = true ->
     Culler.needsUpdate (culler b) = true))).
  - intros a. auto.
  - intros a b c [A1 [A2 A3]] [B1 [B2 B3]]. auto.
  - intros e a. apply dispatch_flags.
Qed.

(** X5: no handler of the program lowers a flag it raises.  Once a camera
    rest occurred in a run, the cancel flag of the streaming loader and the
    dirty flags of both cullers are up at its end, whatever follows the
    rest event. *)
Theorem flags_stay_raised_after_rest
  (ext : Services) (events : list Event) (s : App) :
  In CameraRest events ->
  let s' := run ext events s in
  Streamer.cancel (tilesLoader s') = true /\
  TileCuller.needsUpdate (Streamer.culler (tilesLoader s')) = true /\
  Culler.needsUpdate (culler s') = true.
Proof.
  intros Hin. cbv zeta. revert s.
  induction events as [|e events IH]; intros s; [contradiction|].
  destruct Hin as [->|Hin].
  - change (run ext (CameraRest :: events) s)
      with (run ext events (dispatch ext CameraRest s)).
    destruct (run_flags ext events (dispatch ext CameraRest s)) as [A [B C]].
    repeat split; [apply A | apply B | apply C]; reflexivity.
  - change (run ext (e :: events) s) with (run ext events (dispatch ext e s)).
    apply IH. exact Hin.
Qed.

Lemma flags_stay_raised_after_rest_witness :
  In CameraRest [FragmentsLoaded house; CameraRest; FragmentsDisposed ["slab"]; TimerFired] /\
  Streamer.cancel
    (tilesLoader
       (run servicesOk
          [FragmentsLoaded house; CameraRest; FragmentsDisposed ["slab"]; TimerFired]
          blank)) = true.
Proof.
  assert (Hin : In CameraRest
                  [FragmentsLoaded house; CameraRest;
                   FragmentsDisposed ["slab"]; TimerFired])
    by (simpl; auto).
  split; [exact Hin|].
  exact (proj1 (flags_stay_raised_after_rest servicesOk _ blank Hin)).
Defined.

(** What a model-loaded event does to the fits, the timers and the store. *)
Lemma dispatch_loaded_effects (ext : Services) (model : FragmentsGroup) (t : App) :
  fits (dispatch ext (FragmentsLoaded model) t) = fits t /\
  timers (dispatch ext (FragmentsLoaded model) t)
  = timers t ++ (if schedulesFit ext (FragmentsLoaded model)
                 then [mkTimer FitWorldMeshes 50] else []) /\
  meshes (dispatch ext (FragmentsLoaded model) t)
  = (if schedulesFit ext (FragmentsLoaded model)
     then addAll (items model) (meshes t) else meshes t).
Proof.
  rewrite dispatch_loaded_eq. unfold schedulesFit.
  destruct (semanticsSucceed ext model).
  - destruct (indexedState_frame model t) as [Im [_ [_ [_ [It If_]]]]].
    rewrite attached_meshes. unfold attached.
    destruct (isStreamed model); simpl; rewrite ?It, ?If_, ?Im, ?app_nil_r;
      auto.
  - rewrite andb_false_r.
    destruct (indexer_process ext model); simpl; rewrite app_nil_r; auto.
Qed.

(** ** X6: camera-fits come from timers, one each *)

Lemma dispatch_fit_account (ext : Services) (e : Event) (s : App) :
  List.length (fits (dispatch ext e s)) + List.length (timers (dispatch ext e s))
  = List.length (fits s) + List.length (timers s)
    + (if schedulesFit ext e then 1 else 0) /\
  exists more,
    fits (dispatch ext e s) = fits s ++ more /\
    Forall (fun f => margin f = (8 # 10)%Q) more.
Proof.
  destruct e as [|model|ids|].
  - simpl. split; [lia|]. exists []. rewrite app_nil_r. auto.
  - rewrite dispatch_loaded_eq. unfold schedulesFit.
    destruct (semanticsSucceed ext model).
    + destruct (indexedState_frame model s) as [_ [_ [_ [_ [It If_]]]]].
      unfold attached.
      destruct (isStreamed model); simpl; rewrite ?It, ?If_, ?length_app;
        simpl; (split; [lia|]); exists []; rewrite app_nil_r; auto.
    + rewrite andb_false_r.
      destruct (indexer_process ext model); simpl;
        (split; [lia|]); exists []; rewrite app_nil_r; auto.
  - rewrite dispatch_disposed_frame. simpl. split; [lia|].
    exists []. rewrite app_nil_r. auto.
  - simpl. unfold fireTimer.
    destruct (timers s) as [|[[] d] rest] eqn:Et; simpl.
    + rewrite Et. simpl. split; [lia|]. exists []. rewrite app_nil_r. auto.
    + rewrite length_app. simpl. split; [lia|].
      exists [mkFit (meshes s) (8 # 10)%Q]. split; [reflexivity|].
      repeat constructor.
Qed.

(** X6: a camera-fit is issued only when a timer fires.  Camera-rest,
    model-loaded and model-disposed events leave the fits as they are and
    remove no pending timer; of these only a model-loaded event that reaches
    the [setTimeout] (a non-streamed model whose semantic step goes through)
    appends a timer, one of 50 ms.  A timer event with a timer pending
    removes the oldest one and appends one fit, over [world.meshes] as it
    stands then, with margin 0.8; with none pending it changes nothing.
    Hence along every run the fits issued plus the timers pending grow by
    exactly one for each such model-loaded event, and fits are only
    appended. *)
Theorem fits_come_from_timers
  (ext : Services) (events : list Event) (s : App) :
  (forall e t, e <> TimerFired ->
     fits (dispatch ext e t) = fits t /\
     timers (dispatch ext e t)
     = timers t ++ (if schedulesFit ext e
                    then [mkTimer FitWorldMeshes 50] else [])) /\
  (forall t, timers t = [] -> dispatch ext TimerFired t = t) /\
  (forall t tm rest, timers t = tm :: rest ->
     fits (dispatch ext TimerFired t)
     = fits t ++ [mkFit (meshes t) (8 # 10)%Q] /\
     timers (dispatch ext TimerFired t) = rest) /\
  List.length (fits (run ext events s)) + List.length (timers (run ext events s))
  = List.length (fits s) + List.length (timers s)
    + List.length (filter (schedulesFit ext) events) /\
  exists more,
    fits (run ext events s) = fits s ++ more /\
    Forall (fun f => margin f = (8 # 10)%Q) more.
Proof.
  split; [|split; [|split]].
  - intros e t Hne. destruct e as [|model|ids|].
    + simpl. rewrite app_nil_r. auto.
    + destruct (dispatch_loaded_effects ext model t) as [Hf [Ht _]]. auto.
    + rewrite dispatch_disposed_frame. simpl. rewrite app_nil_r. auto.
    + contradiction.
  - intros t Ht. simpl. unfold fireTimer. rewrite Ht. reflexivity.
  - intros t tm rest Ht. simpl. unfold fireTimer. rewrite Ht.
    destruct tm as [[] d]. simpl. auto.
  - revert s. induction events as [|e events IH]; intros s.
    + simpl. split; [lia|]. exists []. rewrite app_nil_r. auto.
    + change (run ext (e :: events) s) with (run ext events (dispatch ext e s)).
      destruct (IH (dispatch ext e s)) as [Hn [more [Hm Hf]]].
      destruct (dispatch_fit_account ext e s) as [Hn1 [more1 [Hm1 Hf1]]].
      split.
      * rewrite Hn, Hn1. simpl. destruct (schedulesFit ext e); simpl; lia.
      * exists (more1 ++ more). split.
        -- rewrite Hm, Hm1, app_assoc. reflexivity.
        -- apply Forall_app. auto.
Qed.

Lemma fits_come_from_timers_witness :
  timers (dispatch servicesOk (FragmentsLoaded house) blank)
  = [mkTimer FitWorldMeshes 50] /\
  fits (dispatch servicesOk TimerFired
          (dispatch servicesOk (FragmentsLoaded house) blank))
  = [mkFit [wallMesh; slabMesh; roofMesh] (8 # 10)%Q].
Proof.
  assert (Ht : timers (dispatch servicesOk (FragmentsLoaded house) blank)
               = [mkTimer FitWorldMeshes 50])
    by reflexivity.
  split; [exact Ht|].
  exact (proj1 (proj1 (proj2 (proj2
           (fits_come_from_timers servicesOk [] blank)))
           (dispatch servicesOk (FragmentsLoaded house) blank) _ _ Ht)).
Defined.

(** ** X7: nothing is ever unregistered *)

Lemma dispatch_keeps_registrations (ext : Services) (e : Event) (s : App) :
  (exists more,
     Culler.colorMeshes (culler (dispatch ext e s))
     = Culler.colorMeshes (culler s) ++ more) /\
  (forall model, In model (sceneChildren s) ->
                 In model (sceneChildren (dispatch ext e s))).
Proof.
  assert (Hsame : forall t,
            Culler.colorMeshes (culler t) = Culler.colorMeshes (culler s) ->
            sceneChildren t = sceneChildren s ->
            (exists more,
               Culler.colorMeshes (culler t)
               = Culler.colorMeshes (culler s) ++ more) /\
            (forall model, In model (sceneChildren s) ->
                           In model (sceneChildren t))).
  { intros t Hc Hsc. rewrite Hc, Hsc. split; [|auto].
    exists []. rewrite app_nil_r. reflexivity. }
  destruct e as [|model|ids|].
  - apply Hsame; reflexivity.
  - rewrite dispatch_loaded_eq.
    destruct (semanticsSucceed ext model).
    + destruct (indexedState_frame model s) as [_ [Isc [Icu _]]]. split.
      * rewrite attached_colorMeshes, Icu. eexists. reflexivity.
      * intros m Hm. rewrite attached_sceneChildren, Isc.
        apply in_or_app.
        destruct (FragmentsGroup_eq_dec m model) as [->|Hne].
        -- right. left. reflexivity.
        -- left. apply in_in_remove; assumption.
    + destruct (indexer_process ext model); apply Hsame; reflexivity.
  - rewrite dispatch_disposed_frame. apply Hsame; reflexivity.
  - simpl. unfold fireTimer.
    destruct (timers s) as [|[[] d] rest]; apply Hsame; reflexivity.
Qed.

(** X7: no run of events takes a mesh back from the visibility culler or a
    model out of the scene: the meshes handed to [culler.add] before the
    run are still registered, in the same order, and every model that was a
    child of the scene is one at the end. *)
Theorem registrations_are_never_removed
  (ext : Services) (events : list Event) (s : App) :
  (exists more,
     Culler.colorMeshes (culler (run ext events s))
     = Culler.colorMeshes (culler s) ++ more) /\
  (forall model, In model (sceneChildren s) ->
                 In model (sceneChildren (run ext events s))).
Proof.
  apply (run_preorder ext (fun a b =>
    (exists more,
       Culler.colorMeshes (culler b) = Culler.colorMeshes (culler a) ++ more) /\
    (forall model, In model (sceneChildren a) -> In model (sceneChildren b)))).
  - intros a. split; [|auto]. exists []. rewrite app_nil_r. reflexivity.
  - intros a b c [[m1 E1] H1] [[m2 E2] H2]. split; [|auto].
    exists (m1 ++ m2). rewrite E2, E1, app_assoc. reflexivity.
  - intros e a. apply dispatch_keeps_registrations.
Qed.

(** ** X8: what is in the store is registered *)

Lemma disposeFragment_incl (s : App) (id : string) (m : Mesh) :
  In m (meshes (disposeFragment s id)) -> In m (meshes s).
Proof.
  unfold disposeFragment.
  destruct (find _ (meshes s)) as [x|]; simpl; [|auto].
  unfold JsSet.delete. intros H. apply in_remove in H. tauto.
Qed.

Lemma onFragmentsDisposed_incl (ids : list string) (s : App) (m : Mesh) :
  In m (meshes (onFragmentsDisposed ids s)) -> In m (meshes s).
Proof.
  unfold onFragmentsDisposed. revert s.
  induction ids as [|id ids IH]; intros s H; simpl in H; [exact H|].
  apply (disposeFragment_incl s id). apply IH. exact H.
Qed.

Lemma dispatch_keeps_store_registered (ext : Services) (e : Event) (s : App) :
  (forall m, inStore m s -> inVisibilityCuller m s /\ inSceneGraph m s) ->
  forall m, inStore m (dispatch ext e s) ->
            inVisibilityCuller m (dispatch ext e s) /\
            inSceneGraph m (dispatch ext e s).
Proof.
  unfold inStore, inVisibilityCuller, inSceneGraph.
  intros Hinv m Hm.
  destruct (dispatch_keeps_registrations ext e s) as [[more Hc] Hsc].
  assert (Hold : In m (meshes s) ->
            In m (Culler.colorMeshes (culler (dispatch ext e s))) /\
            exists model, In model (sceneChildren (dispatch ext e s)) /\
                          In m (map mesh (items model))).
  { intros Hin. destruct (Hinv m Hin) as [H1 [model [H2 H3]]]. split.
    - rewrite Hc. apply in_or_app. auto.
    - exists model. auto. }
  destruct e as [|model|ids|].
  - apply Hold. exact Hm.
  - revert Hm Hold. rewrite dispatch_loaded_eq.
    destruct (semanticsSucceed ext model).
    + destruct (indexedState_frame model s) as [Im [Isc [Icu _]]].
      rewrite attached_meshes, attached_colorMeshes, attached_sceneChildren.
      rewrite Im, Isc, Icu.
      destruct (isStreamed model); intros Hm Hold; [auto|].
      destruct (addAll_grows (items model) (meshes s)) as [extra [E Hex]].
      rewrite E in Hm. apply in_app_or in Hm. destruct Hm as [Hm|Hm]; [auto|].
      destruct (Hex m Hm) as [Hitem _]. split.
      * apply in_or_app. right. exact Hitem.
      * exists model. split; [|exact Hitem].
        apply in_or_app. right. left. reflexivity.
    + destruct (indexer_process ext model); auto.
  - apply Hold. simpl in Hm. apply (onFragmentsDisposed_incl ids s). exact Hm.
  - apply Hold. simpl in Hm. unfold fireTimer in Hm.
    destruct (timers s) as [|[[] d] rest]; exact Hm.
Qed.

(** X8: if every mesh in [world.meshes] is registered with the visibility
    culler and sits in the scene graph under some model, this is still so
    after any run of events: loading registers what it stores, and disposal
    only takes meshes out of [world.meshes]. *)
Theorem stored_meshes_stay_registered
  (ext : Services) (events : list Event) (s : App) :
  (forall m, inStore m s -> inVisibilityCuller m s /\ inSceneGraph m s) ->
  forall m, inStore m (run ext events s) ->
            inVisibilityCuller m (run ext events s) /\
            inSceneGraph m (run ext events s).
Proof.
  apply (run_invariant ext (fun t =>
    forall m, inStore m t -> inVisibilityCuller m t /\ inSceneGraph m t)).
  intros e t. apply dispatch_keeps_store_registered.
Qed.

Lemma stored_meshes_stay_registered_witness :
  (forall m, inStore m blank -> inVisibilityCuller m blank /\ inSceneGraph m blank) /\
  (inVisibilityCuller slabMesh
     (run servicesOk [FragmentsLoaded house; FragmentsDisposed ["wall"]; CameraRest]
        blank)).
Proof.
  assert (H0 : forall m, inStore m blank ->
                 inVisibilityCuller m blank /\ inSceneGraph m blank)
    by (intros m []).
  split; [exact H0|].
  refine (proj1 (stored_meshes_stay_registered servicesOk
           [FragmentsLoaded house; FragmentsDisposed ["wall"]; CameraRest]
           blank H0 slabMesh _)).
  vm_compute. left. reflexivity.
Defined.

(** ** X9: disposal only removes, one mesh per identifier at most *)




(** ** X10, X11: loading a model and disposing of it *)

Lemma NoDup_app_disjoint {A : Type} (l1 l2 : list A) (a : A) :
  NoDup (l1 ++ l2) -> In a l1 -> In a l2 -> False.
Proof.
  induction l1 as [|x l1 IH]; simpl; intros Hnd H1 H2; [contradiction|].
  inversion Hnd as [|? ? Hnin Hnd']; subst.
  destruct H1 as [->|H1].
  - apply Hnin. apply in_or_app. auto.
  - apply IH; assumption.
Qed.

Lemma filter_all_false {A : Type} (f : A -> bool) (l : list A) :
  (forall x, In x l -> f x = false) -> filter f l = [].
Proof.
  induction l as [|a l IH]; intros H; simpl; [reflexivity|].
  rewrite (H a (or_introl eq_refl)). apply IH.
  intros x Hx. apply H. right. exact Hx.
Qed.

Lemma listed_meshIds (model : FragmentsGroup) (m : Mesh) :
  In m (map mesh (items model)) -> listed (meshIds model) m = true.
Proof.
  intros Hin. unfold listed, meshIds. apply existsb_exists.
  exists (uuid m). split; [|apply String.eqb_refl].
  apply in_map_iff in Hin. destruct Hin as [f [<- Hf]].
  apply in_map_iff. exists f. auto.
Qed.

Lemma load_dispose_meshes (ext : Services) (model : FragmentsGroup) (s : App) :
  isStreamed model = false ->
  semanticsSucceed ext model = true ->
  NoDup (map uuid (meshes s ++ map mesh (items model))) ->
  meshes (onFragmentsDisposed (meshIds model)
            (dispatch ext (FragmentsLoaded model) s))
  = meshes s.
Proof.
  intros Hs Hok Hnd.
  assert (Em : meshes (dispatch ext (FragmentsLoaded model) s)
               = meshes s ++ map mesh (items model)).
  { rewrite dispatch_loaded_eq, Hok, attached_meshes, Hs.
    destruct (indexedState_frame model s) as [Im _]. rewrite Im.
    apply addAll_fresh. exact Hnd. }
  rewrite meshes_onFragmentsDisposed
    by (unfold distinctIds; rewrite Em; exact Hnd).
  rewrite Em, filter_app.
  rewrite filter_all_true, filter_all_false.
  - apply app_nil_r.
  - intros m Hm. rewrite (listed_meshIds model m Hm). reflexivity.
  - intros m Hm. apply negb_true_iff. apply listed_false. intros Hin.
    unfold meshIds in Hin. rewrite <- (map_map mesh uuid) in Hin.
    rewrite map_app in Hnd.
    apply (NoDup_app_disjoint _ _ (uuid m) Hnd); [apply in_map; exact Hm | exact Hin].
Qed.

(** X10: when the uuids of the stored meshes and of a non-streamed model's
    fragments are pairwise distinct, loading the model and then disposing
    of its fragment identifiers gives back [world.meshes] as it was, same
    meshes in the same order. *)
Theorem load_then_dispose_restores_store
  (ext : Services) (model : FragmentsGroup) (s : App) :
  isStreamed model = false ->
  semanticsSucceed ext model = true ->
  NoDup (map uuid (meshes s ++ map mesh (items model))) ->
  meshes (run ext [FragmentsLoaded model; FragmentsDisposed (meshIds model)] s)
  = meshes s.
Proof.
  intros Hs Hok Hnd. unfold run. simpl fold_left.
  change (dispatch ext (FragmentsDisposed (meshIds model))
            (dispatch ext (FragmentsLoaded model) s))
    with (onFragmentsDisposed (meshIds model)
            (dispatch ext (FragmentsLoaded model) s)).
  apply load_dispose_meshes; assumption.
Qed.

Lemma load_then_dispose_restores_store_witness :
  NoDup (map uuid (meshes (dispatch servicesOk (FragmentsLoaded house) blank)
                   ++ map mesh (items shed))) /\
  meshes (run servicesOk [FragmentsLoaded shed; FragmentsDisposed (meshIds shed)]
            (dispatch servicesOk (FragmentsLoaded house) blank))
  = [wallMesh; slabMesh; roofMesh].
Proof.
  assert (Hnd : NoDup (map uuid
                         (meshes (dispatch servicesOk (FragmentsLoaded house) blank)
                          ++ map mesh (items shed))))
    by distinct_constants.
  split; [exact Hnd|].
  exact (load_then_dispose_restores_store servicesOk shed
           (dispatch servicesOk (FragmentsLoaded house) blank)
           eq_refl eq_refl Hnd).
Defined.

(** X11: disposal does not cancel the camera-fit a load scheduled.  When
    a non-streamed model whose semantic step goes through is loaded with no
    timer pending and its fragment identifiers are disposed of before the
    timer fires, the timer is still pending after the disposal, and when it
    fires the camera is fitted to [world.meshes] as the disposal left it.
    If moreover the uuids of the stored meshes and of the model's fragments
    are pairwise distinct, that is exactly the meshes held before the load
    (possibly none). *)
Theorem disposal_does_not_cancel_fit
  (ext : Services) (model : FragmentsGroup) (s : App) :
  timers s = [] ->
  isStreamed model = false ->
  semanticsSucceed ext model = true ->
  let s2 := run ext [FragmentsLoaded model; FragmentsDisposed (meshIds model)] s in
  let s' := dispatch ext TimerFired s2 in
  timers s2 = [mkTimer FitWorldMeshes 50] /\
  fits s2 = fits s /\
  fits s' = fits s ++ [mkFit (meshes s2) (8 # 10)%Q] /\
  timers s' = [] /\
  meshes s' = meshes s2 /\
  (NoDup (map uuid (meshes s ++ map mesh (items model))) ->
   meshes s2 = meshes s /\
   fits s' = fits s ++ [mkFit (meshes s) (8 # 10)%Q]).
Proof.
  intros Ht Hs Hok. cbv zeta.
  change (run ext [FragmentsLoaded model; FragmentsDisposed (meshIds model)] s)
    with (dispatch ext (FragmentsDisposed (meshIds model))
            (dispatch ext (FragmentsLoaded model) s)).
  rewrite dispatch_disposed_frame.
  remember (dispatch ext (FragmentsLoaded model) s) as s1 eqn:Es1.
  pose proof (dispatch_loaded_effects ext model s) as He.
  rewrite <- Es1 in He. destruct He as [Ef [Et _]].
  unfold schedulesFit in Et. rewrite Hs, Hok, Ht in Et. simpl in Et.
  remember (meshes (onFragmentsDisposed (meshIds model) s1)) as left eqn:El.
  assert (Hfire : fits (dispatch ext TimerFired (set_meshes s1 left))
                  = fits s ++ [mkFit left (8 # 10)%Q] /\
                  timers (dispatch ext TimerFired (set_meshes s1 left)) = [] /\
                  meshes (dispatch ext TimerFired (set_meshes s1 left)) = left).
  { change (dispatch ext TimerFired (set_meshes s1 left))
      with (fireTimer (set_meshes s1 left)).
    unfold fireTimer.
    change (timers (set_meshes s1 left)) with (timers s1).
    rewrite Et. simpl. rewrite Ef. auto. }
  destruct Hfire as [F1 [F2 F3]].
  change (timers (set_meshes s1 left)) with (timers s1).
  change (fits (set_meshes s1 left)) with (fits s1).
  change (meshes (set_meshes s1 left)) with left.
  repeat split; try assumption.
  - subst left s1. apply load_dispose_meshes; assumption.
  - rewrite F1.
    replace left with (meshes s); [reflexivity|].
    subst left s1. symmetry. apply load_dispose_meshes; assumption.
Qed.

Lemma disposal_does_not_cancel_fit_witness :
  timers blank = [] /\
  fits (dispatch servicesOk TimerFired
          (run servicesOk [FragmentsLoaded house; FragmentsDisposed (meshIds house)]
             blank))
  = [mkFit [] (8 # 10)%Q].
Proof.
  split; [reflexivity|].
  refine (proj2 (proj2 (proj2 (proj2 (proj2 (proj2
           (disposal_does_not_cancel_fit servicesOk house blank
              eq_refl eq_refl eq_refl))))) _)).
  distinct_constants.
Defined.

(** ** X12: the order of the identifiers *)

Lemma find_after_delete (b : string) (m : Mesh) (l : list Mesh) :
  uuid m <> b ->
  find (fun x => String.eqb (uuid x) b) (JsSet.delete Mesh_eq_dec m l)
  = find (fun x => String.eqb (uuid x) b) l.
Proof.
  intros Hne. unfold JsSet.delete.
  induction l as [|a l IH]; simpl; [reflexivity|].
  destruct (Mesh_eq_dec m a) as [<-|_].
  - destruct (String.eqb_spec (uuid m) b) as [E|_]; [contradiction | exact IH].
  - simpl. rewrite IH. reflexivity.
Qed.

Lemma find_uuid (id : string) (l : list Mesh) (m : Mesh) :
  find (fun x => String.eqb (uuid x) id) l = Some m -> uuid m = id.
Proof.
  intros H. apply find_some in H. destruct H as [_ H].
  apply String.eqb_eq. exact H.
Qed.

Lemma disposeFragment_comm (s : App) (a b : string) :
  disposeFragment (disposeFragment s a) b
  = disposeFragment (disposeFragment s b) a.
Proof.
  destruct (string_dec a b) as [->|Hne]; [reflexivity|].
  unfold disposeFragment.
  destruct (find (fun m => String.eqb (uuid m) a) (meshes s)) as [ma|] eqn:Ha;
    destruct (find (fun m => String.eqb (uuid m) b) (meshes s)) as [mb|] eqn:Hb;
    simpl.
  - pose proof (find_uuid _ _ _ Ha) as Ua. pose proof (find_uuid _ _ _ Hb) as Ub.
    rewrite !find_after_delete by congruence. rewrite ?Ha, ?Hb.
    unfold set_meshes, JsSet.delete. simpl.
    rewrite remove_remove_comm. reflexivity.
  - pose proof (find_uuid _ _ _ Ha) as Ua.
    rewrite find_after_delete by congruence. rewrite ?Ha, ?Hb. reflexivity.
  - pose proof (find_uuid _ _ _ Hb) as Ub.
    rewrite find_after_delete by congruence. rewrite ?Ha, ?Hb. reflexivity.
  - rewrite ?Ha, ?Hb. reflexivity.
Qed.

(** X12: the state a model-disposed event leaves does not depend on the
    order in which the event lists the identifiers. *)
Theorem disposal_order_is_irrelevant
  (fragmentIDs reordered : list string) (s : App) :
  Permutation fragmentIDs reordered ->
  onFragmentsDisposed fragmentIDs s = onFragmentsDisposed reordered s.
Proof.
  unfold onFragmentsDisposed. intros Hp. revert s.
  induction Hp as [|x l l' _ IH|x y l|l l' l'' _ IH1 _ IH2]; intros s; simpl.
  - reflexivity.
  - apply IH.
  - rewrite disposeFragment_comm. reflexivity.
  - rewrite IH1. apply IH2.
Qed.

Lemma disposal_order_is_irrelevant_witness :
  Permutation ["wall"; "roof"] ["roof"; "wall"] /\
  onFragmentsDisposed ["wall"; "roof"]
    (dispatch servicesOk (FragmentsLoaded house) blank)
  = onFragmentsDisposed ["roof"; "wall"]
      (dispatch servicesOk (FragmentsLoaded house) blank).
Proof.
  assert (Hp : Permutation ["wall"; "roof"] ["roof"; "wall"])
    by apply perm_swap.
  split; [exact Hp|].
  exact (disposal_order_is_irrelevant _ _
           (dispatch servicesOk (FragmentsLoaded house) blank) Hp).
Defined.

(** ** X13: camera rest and the other events *)

Lemma disposeFragment_onRest (s : App) (id : string) :
  disposeFragment (onRest s) id = onRest (disposeFragment s id).
Proof.
  unfold disposeFragment.
  change (meshes (onRest s)) with (meshes s).
  destruct (find _ (meshes s)); reflexivity.
Qed.

Lemma onFragmentsDisposed_onRest (ids : list string) (s : App) :
  onFragmentsDisposed ids (onRest s) = onRest (onFragmentsDisposed ids s).
Proof.
  unfold onFragmentsDisposed. revert s.
  induction ids as [|id ids IH]; intros s; simpl; [reflexivity|].
  rewrite disposeFragment_onRest. apply IH.
Qed.

(** X13: a camera-rest event commutes with every other event: handling it
    before or after a model-loaded event, a model-disposed event or a timer
    gives the same state; and a second rest in a row changes nothing. *)
Theorem rest_commutes_with_events (ext : Services) (e : Event) (s : App) :
  dispatch ext CameraRest (dispatch ext e s)
  = dispatch ext e (dispatch ext CameraRest s) /\
  dispatch ext CameraRest (dispatch ext CameraRest s) = dispatch ext CameraRest s.
Proof.
  split; [|reflexivity].
  destruct e as [|model|ids|].
  - reflexivity.
  - rewrite !dispatch_loaded_eq. simpl dispatch.
    destruct (semanticsSucceed ext model).
    + unfold attached, indexedState.
      destruct (isStreamed model), (hasProperties model); reflexivity.
    + destruct (indexer_process ext model); reflexivity.
  - simpl. symmetry. apply onFragmentsDisposed_onRest.
  - simpl. unfold fireTimer.
    change (timers (onRest s)) with (timers s).
    destruct (timers s) as [|[[] d] rest]; reflexivity.
Qed.

(** ** C10: what the delayed camera-fit covers *)



